(** * PlexCache: tiered placement and move engine

    A shallow embedding of [file_operations.py] (path translation, subtitle
    discovery, placement filtering, move planning) and of the move
    orchestration of [plexcache_app.py], together with the properties of the
    specification that can be settled on it.

    Conventions.
    - Python [str] values are [string]; the [str] methods and the
      [os.path] (posixpath) functions the program calls are modelled in
      the modules [PyStr] and [PosixPath].
    - The filesystem is a finite map from path strings to file contents
      plus a set of directories; a path is identified with the string
      handed to the operating system.
    - A Python call either returns a value or raises; effectful code lives
      in the monad [M] (world state passed explicitly, exceptions as
      results).  The world reached when an exception is raised is kept. *)

From Stdlib Require Import Ascii String QArith Lqa.
From stdpp Require Import base gmap sets list strings.

Local Open Scope Z_scope.
Local Open Scope nat_scope.

(** ** Python [str] methods *)

Module PyStr.

(** [s[n:]] *)
Fixpoint str_drop (n : nat) (s : string) : string :=
  match n, s with
  | 0, _ => s
  | S n', String _ s' => str_drop n' s'
  | S _, EmptyString => EmptyString
  end.

(** [s.startswith(p)] *)
Fixpoint startswith (s p : string) {struct p} : bool :=
  match p with
  | EmptyString => true
  | String a p' =>
      match s with
      | String b s' => Ascii.eqb a b && startswith s' p'
      | EmptyString => false
      end
  end.

(** [s.endswith(p)]: [s] is [p], or the tail of [s] ends with [p]. *)
Fixpoint endswith (s p : string) : bool :=
  String.eqb s p ||
  match s with
  | String _ s' => endswith s' p
  | EmptyString => false
  end.

(** [s.endswith(tuple(ps))] *)
Definition endswith_any (s : string) (ps : list string) : bool :=
  existsb (endswith s) ps.

(** [sub in s] *)
Fixpoint contains (s sub : string) : bool :=
  startswith s sub ||
  match s with
  | String _ s' => contains s' sub
  | EmptyString => false
  end.

(** [s.replace(old, new, 1)]: the leftmost occurrence only.  With an
    empty [old] Python inserts [new] in front of [s]. *)
Fixpoint replace_1 (s old new : string) : string :=
  if startswith s old then new +:+ str_drop (String.length old) s
  else match s with
       | String c s' => String c (replace_1 s' old new)
       | EmptyString => EmptyString
       end.

(** Left-to-right scan of [s.replace(old, new)] for a non-empty [old];
    [skip] counts the characters of the occurrence just replaced that
    are still to be passed over. *)
Fixpoint replace_from (skip : nat) (s old new : string) : string :=
  match s with
  | EmptyString => EmptyString
  | String c s' =>
      match skip with
      | S k => replace_from k s' old new
      | 0 =>
          if startswith s old
          then new +:+ replace_from (String.length old - 1) s' old new
          else String c (replace_from 0 s' old new)
      end
  end.

Fixpoint interleave (s new : string) : string :=
  match s with
  | EmptyString => EmptyString
  | String c s' => String c (new +:+ interleave s' new)
  end.

(** [s.replace(old, new)]: every non-overlapping occurrence, leftmost
    first.  With an empty [old] Python puts [new] around every
    character. *)
Definition replace (s old new : string) : string :=
  match old with
  | EmptyString => new +:+ interleave s new
  | String _ _ => replace_from 0 s old new
  end.

(** [sep.join(parts)] *)
Fixpoint join (sep : string) (parts : list string) : string :=
  match parts with
  | [] => EmptyString
  | [p] => p
  | p :: rest => p +:+ sep +:+ join sep rest
  end.

(** [s.split(c)] for a one-character separator. *)
Fixpoint split (c : ascii) (s : string) : list string :=
  match s with
  | EmptyString => [EmptyString]
  | String a s' =>
      if Ascii.eqb a c then EmptyString :: split c s'
      else match split c s' with
           | h :: t => String a h :: t
           | [] => [String a EmptyString]
           end
  end.

(** [(s[:i], s[i+1:])] for [i = s.rfind(c)], [None] when [c] does not
    occur in [s]. *)
Fixpoint rpartition (c : ascii) (s : string) : option (string * string) :=
  match s with
  | EmptyString => None
  | String a s' =>
      match rpartition c s' with
      | Some (b, t) => Some (String a b, t)
      | None => if Ascii.eqb a c then Some (EmptyString, s') else None
      end
  end.

(** [s.rstrip(c)] *)
Fixpoint rstrip (c : ascii) (s : string) : string :=
  match s with
  | EmptyString => EmptyString
  | String a s' =>
      match rstrip c s' with
      | EmptyString => if Ascii.eqb a c then EmptyString else String a EmptyString
      | r => String a r
      end
  end.

(** [s == c * len(s)] *)
Fixpoint all_char (c : ascii) (s : string) : bool :=
  match s with
  | EmptyString => true
  | String a s' => Ascii.eqb a c && all_char c s'
  end.

Definition is_empty (s : string) : bool :=
  match s with EmptyString => true | String _ _ => false end.

End PyStr.

(** ** [os.path] on a POSIX system *)

Module PosixPath.
Import PyStr.

Definition sep : ascii := "/"%char.
Definition extsep : ascii := "."%char.
Definition curdir : string := ".".
Definition pardir : string := "..".

(** [(p[:i], p[i:])] with [i = p.rfind('/') + 1] *)
Definition split_head_tail (p : string) : string * string :=
  match rpartition sep p with
  | Some (b, t) => (b +:+ "/", t)
  | None => (EmptyString, p)
  end.

(** [os.path.dirname] *)
Definition dirname (p : string) : string :=
  let head := fst (split_head_tail p) in
  if negb (is_empty head) && negb (all_char sep head)
  then rstrip sep head else head.

(** [os.path.basename] *)
Definition basename (p : string) : string := snd (split_head_tail p).

(** [os.path.splitext]: the extension starts at the last dot of the last
    path component, unless only dots precede it there. *)
Definition splitext (p : string) : string * string :=
  let (head, tail) := split_head_tail p in
  match rpartition extsep tail with
  | Some (root, e) =>
      if all_char extsep root then (p, EmptyString)
      else (head +:+ root, String extsep e)
  | None => (p, EmptyString)
  end.

(** [os.path.join(a, b)] *)
Definition join2 (a b : string) : string :=
  if startswith b "/" then b
  else if is_empty a || endswith a "/" then a +:+ b
  else a +:+ "/" +:+ b.

(** [os.path.join(a, *p)] *)
Definition join_all (a : string) (p : list string) : string :=
  fold_left join2 p a.

(** One iteration of the component loop of [os.path.normpath]. *)
Definition normpath_step (initial_slashes : nat) (new_comps : list string)
    (comp : string) : list string :=
  if String.eqb comp "" || String.eqb comp "." then new_comps
  else if negb (String.eqb comp "..")
          || (Nat.eqb initial_slashes 0 && Nat.eqb (length new_comps) 0)
          || match last new_comps with
             | Some l => String.eqb l ".."
             | None => false
             end
  then new_comps ++ [comp]
  else removelast new_comps.

Fixpoint slashes (n : nat) : string :=
  match n with 0 => EmptyString | S k => String sep (slashes k) end.

(** [os.path.normpath] *)
Definition normpath (path : string) : string :=
  if is_empty path then curdir
  else
    let initial_slashes :=
      if startswith path "/"
      then if startswith path "//" && negb (startswith path "///")
           then 2 else 1
      else 0 in
    let comps := split sep path in
    let new_comps := fold_left (normpath_step initial_slashes) comps [] in
    let path' := slashes initial_slashes +:+ join "/" new_comps in
    if is_empty path' then curdir else path'.

(** [os.path.abspath], the working directory of the process being
    [cwd]. *)
Definition abspath (cwd path : string) : string :=
  normpath (if startswith path "/" then path else join2 cwd path).

(** Length of [os.path.commonprefix([l1, l2])] for two component lists. *)
Fixpoint commonprefix_len (l1 l2 : list string) : nat :=
  match l1, l2 with
  | a :: l1', b :: l2' =>
      if String.eqb a b then S (commonprefix_len l1' l2') else 0
  | _, _ => 0
  end.

(** [[x for x in p.split('/') if x]] *)
Definition components (p : string) : list string :=
  filter (fun x => is_empty x = false) (split sep p).

(** [os.path.relpath(path, start)]; [None] stands for the [ValueError]
    raised on an empty [path]. *)
Definition relpath (cwd path start : string) : option string :=
  if is_empty path then None
  else
    let start_list := components (abspath cwd start) in
    let path_list := components (abspath cwd path) in
    let i := commonprefix_len start_list path_list in
    let rel_list :=
      replicate (length start_list - i) pardir ++ drop i path_list in
    match rel_list with
    | [] => Some curdir
    | a :: p => Some (join_all a p)
    end.

End PosixPath.

(** ** Exceptions, the world and the monad of effects *)

Inductive exn : Type :=
  | ValueError (msg : string)
  | IndexError (msg : string)
  | KeyError (key : string)
  | PermissionError (path : string)
  | OSError (path : string)
  | SystemExit (msg : string).

(** [isinstance(e, Exception)]: [SystemExit] derives from [BaseException]
    only, so an [except Exception] clause lets it through. *)
Definition is_Exception (e : exn) : bool :=
  match e with
  | SystemExit _ => false
  | _ => true
  end.

(** [str(e)] *)
Definition exn_str (e : exn) : string :=
  match e with
  | ValueError msg | IndexError msg | SystemExit msg => msg
  | KeyError key => "'" +:+ key +:+ "'"
  | PermissionError path => "[Errno 13] Permission denied: '" +:+ path +:+ "'"
  | OSError path => "[Errno 2] No such file or directory: '" +:+ path +:+ "'"
  end.

Inductive result (A : Type) : Type :=
  | Return (a : A)
  | Raise (e : exn).
Arguments Return {A} a.
Arguments Raise {A} e.

Definition result_bind {A B} (r : result A) (k : A -> result B) : result B :=
  match r with
  | Return a => k a
  | Raise e => Raise e
  end.

(** What the program prints or records in its run summary.  Sizes are kept
    as the numbers they are, not as formatted text. *)
Inductive event : Type :=
  | MoveCmd (cmd : string * string)
  | TotalSize (destination : string) (size : Q) (unit : string)
  | FreeSpace (destination : string) (size : Q) (unit : string)
  | NotEnoughSpace (destination : string)
  | MovingMedia (destination : string)
  | Finished (errors : nat)
  | NothingToMove (destination : string)
  | NoFilesToMove
  | ErrorMsg (msg : string).

(** The state the program acts on: regular files with their contents,
    directories, directories that may not be listed, the working directory,
    standard output, and the summary kept by the logging manager
    ([LoggingManager.summary_messages], [LoggingManager.files_moved]). *)
Record world : Type := World {
  files : gmap string string;
  dirs : gset string;
  denied : gset string;
  cwd : string;
  stdout : list event;
  summary_messages : list event;
  files_moved : bool
}.

Definition set_files (f : gmap string string -> gmap string string) (w : world) : world :=
  World (f (files w)) (dirs w) (denied w) (cwd w) (stdout w)
        (summary_messages w) (files_moved w).
Definition set_dirs (f : gset string -> gset string) (w : world) : world :=
  World (files w) (f (dirs w)) (denied w) (cwd w) (stdout w)
        (summary_messages w) (files_moved w).
Definition set_stdout (f : list event -> list event) (w : world) : world :=
  World (files w) (dirs w) (denied w) (cwd w) (f (stdout w))
        (summary_messages w) (files_moved w).
Definition set_summary (msgs : list event) (moved : bool) (w : world) : world :=
  World (files w) (dirs w) (denied w) (cwd w) (stdout w) msgs moved.

Definition M (A : Type) : Type := world -> result A * world.

Definition ret {A} (a : A) : M A := fun w => (Return a, w).
Definition raise {A} (e : exn) : M A := fun w => (Raise e, w).
Definition bind {A B} (m : M A) (k : A -> M B) : M B :=
  fun w =>
    match m w with
    | (Return a, w') => k a w'
    | (Raise e, w') => (Raise e, w')
    end.
Definition lift {A} (r : result A) : M A := fun w => (r, w).
Definition gets {A} (f : world -> A) : M A := fun w => (Return (f w), w).
Definition modify (f : world -> world) : M unit := fun w => (Return tt, f w).

(** [try: m except Exception as e: h e] *)
Definition try_except {A} (m : M A) (h : exn -> M A) : M A :=
  fun w =>
    match m w with
    | (Return a, w') => (Return a, w')
    | (Raise e, w') => if is_Exception e then h e w' else (Raise e, w')
    end.

Declare Scope M_scope.
Delimit Scope M_scope with M.
Notation "x <- m ;; k" := (bind m (fun x => k))
  (at level 100, m at next level, right associativity) : M_scope.
Notation "m ;; k" := (bind m (fun _ => k))
  (at level 100, right associativity) : M_scope.
Notation "x <~ r ;; k" := (result_bind r (fun x => k))
  (at level 100, r at next level, right associativity) : M_scope.

(** [for x in xs: s = body x s] *)
Fixpoint for_each {A S} (xs : list A) (body : A -> S -> M S) (s : S) : M S :=
  match xs with
  | [] => ret s
  | x :: xs' => bind (body x s) (for_each xs' body)
  end.

(** [[f(x) for x in xs]], evaluated left to right. *)
Fixpoint map_M {A B} (f : A -> M B) (xs : list A) : M (list B) :=
  match xs with
  | [] => ret []
  | x :: xs' => bind (f x) (fun y => bind (map_M f xs') (fun ys => ret (y :: ys)))
  end.

(** *** Operating-system calls *)

Module OS.
Import PyStr PosixPath.

(** [os.path.isfile] *)
Definition isfile (p : string) : M bool :=
  gets (fun w => bool_decide (is_Some (files w !! p))).

(** [os.path.exists] *)
Definition exists_ (p : string) : M bool :=
  gets (fun w => bool_decide (is_Some (files w !! p)) || bool_decide (p ∈ dirs w)).

(** [os.remove] *)
Definition remove (p : string) : M unit :=
  fun w =>
    match files w !! p with
    | Some _ => (Return tt, set_files (delete p) w)
    | None => (Raise (OSError p), w)
    end.

(** [with open(p, "w") as f: f.write(text)]; the file is created or
    truncated.  The path is assumed to be writable. *)
Definition write_text (p text : string) : M unit :=
  modify (set_files (<[p := text]>)).

Record DirEntry : Type := { name : string; path : string; is_file : bool }.

Definition entry_of (directory_path : string) (regular : bool) (p : string)
    : option DirEntry :=
  if String.eqb (dirname p) directory_path && negb (is_empty (basename p))
  then Some {| name := basename p;
               path := join2 directory_path (basename p);
               is_file := regular |}
  else None.

(** The entries of a directory: the files and the directories of the
    world whose parent it is, in an order fixed by the world. *)
Definition entries (w : world) (directory_path : string) : list DirEntry :=
  omap (entry_of directory_path true) (elements (dom (files w)))
  ++ omap (entry_of directory_path false) (elements (dirs w)).

(** [list(os.scandir(directory_path))] *)
Definition scandir (directory_path : string) : M (list DirEntry) :=
  fun w =>
    if bool_decide (directory_path ∈ denied w)
    then (Raise (PermissionError directory_path), w)
    else if bool_decide (directory_path ∈ dirs w)
    then (Return (entries w directory_path), w)
    else (Raise (OSError directory_path), w).

(** [print(...)] *)
Definition print (e : event) : M unit :=
  modify (set_stdout (fun out => out ++ [e])).

End OS.

Local Open Scope M_scope.

(** ** [file_operations.py] *)

(** *** class FilePathModifier *)

Module FilePathModifier.
Import PyStr.

Record t : Type := {
  plex_source : string;
  real_source : string;
  plex_library_folders : list string;
  nas_library_folders : list string
}.

(** The inner loop [for j, folder in enumerate(self.plex_library_folders)]
    from index [j] on: the first folder found in the path is replaced
    (every occurrence of it) and the loop is left. *)
Fixpoint library_folder_loop (self : t) (j : nat) (folders : list string)
    (file_path : string) : result string :=
  match folders with
  | [] => Return file_path
  | folder :: rest =>
      if contains file_path folder then
        match nas_library_folders self !! j with
        | Some nas => Return (replace file_path folder nas)
        | None => Raise (IndexError "list index out of range")
        end
      else library_folder_loop self (S j) rest file_path
  end.

(** The body of the outer loop for one path. *)
Definition modify_file_path (self : t) (file_path : string) : result string :=
  let file_path := replace_1 file_path (plex_source self) (real_source self) in
  library_folder_loop self 0 (plex_library_folders self) file_path.

(** [for i, file_path in enumerate(files): ...; files[i] = file_path],
    from index [i] on; [n] bounds the iterations left. *)
Fixpoint enumerate_loop (self : t) (n i : nat) (files : list string)
    : result (list string) :=
  match n with
  | 0 => Return files
  | S n' =>
      match files !! i with
      | None => Return files
      | Some file_path =>
          file_path' <~ modify_file_path self file_path ;;
          enumerate_loop self n' (S i) (<[i := file_path']> files)
      end
  end.

Definition modify_file_paths (self : t) (files : option (list string))
    : result (list string) :=
  match files with
  | None => Return []
  | Some files =>
      let files :=
        filter (fun file_path => startswith file_path (plex_source self) = true)
               files in
      enumerate_loop self (length files) 0 files
  end.

End FilePathModifier.

(** *** class SubtitleFinder *)

Module SubtitleFinder.
Import PyStr PosixPath.

Record t : Type := { subtitle_extensions : list string }.

Definition default_subtitle_extensions : list string :=
  [".srt"; ".vtt"; ".sbv"; ".sub"; ".idx"].

Definition __init__ (subtitle_extensions : option (list string)) : t :=
  {| subtitle_extensions := default default_subtitle_extensions subtitle_extensions |}.

(** The condition of the comprehension in [_find_subtitle_files]; note
    that the entry's name is compared with [file], the path as given. *)
Definition is_subtitle_of (self : t) (file file_name : string)
    (entry : OS.DirEntry) : bool :=
  OS.is_file entry
  && startswith (OS.name entry) file_name
  && negb (String.eqb (OS.name entry) file)
  && endswith_any (OS.name entry) (subtitle_extensions self).

Definition _find_subtitle_files (self : t) (directory_path file : string)
    : M (list string) :=
  let file_name := fst (splitext (basename file)) in
  try_except
    (scan <- OS.scandir directory_path ;;
     ret (OS.path <$> List.filter (is_subtitle_of self file file_name) scan))
    (fun e =>
       match e with
       | PermissionError _ | OSError _ => ret []
       | _ => raise e
       end).

Record loop_state : Type := {
  processed_files : gset string;
  all_media_files : list string
}.

Definition get_media_subtitles (self : t) (media_files : list string)
    (files_to_skip : option (gset string)) : M (list string) :=
  let files_to_skip := default ∅ files_to_skip in
  st <- for_each media_files
          (fun file st =>
             if bool_decide (file ∈ files_to_skip)
                || bool_decide (file ∈ processed_files st)
             then ret st
             else
               let processed := {[file]} ∪ processed_files st in
               let directory_path := dirname file in
               present <- OS.exists_ directory_path ;;
               if (present : bool) then
                 subtitle_files <- _find_subtitle_files self directory_path file ;;
                 ret {| processed_files := processed;
                        all_media_files := all_media_files st ++ subtitle_files |}
               else
                 ret {| processed_files := processed;
                        all_media_files := all_media_files st |})
          {| processed_files := ∅; all_media_files := media_files |} ;;
  ret (all_media_files st).

End SubtitleFinder.

(** *** class FileFilter *)

Module FileFilter.
Import PyStr PosixPath.

Record t : Type := {
  real_source : string;
  cache_dir : string;
  is_unraid : bool;
  mover_cache_exclude_file : string
}.

Definition _get_cache_paths (self : t) (file : string) : string * string :=
  let cache_path := replace_1 (dirname file) (real_source self) (cache_dir self) in
  let cache_file_name := join2 cache_path (basename file) in
  (cache_path, cache_file_name).

(** [file.replace("/mnt/user/", "/mnt/user0/", 1) if self.is_unraid else file] *)
Definition array_file_of (self : t) (file : string) : string :=
  if is_unraid self then replace_1 file "/mnt/user/" "/mnt/user0/" else file.

Definition _should_add_to_array (self : t) (file cache_file_name : string)
    (media_to_cache : list string) : M bool :=
  if bool_decide (file ∈ media_to_cache) then ret false
  else
    let array_file := array_file_of self file in
    on_array <- OS.isfile array_file ;;
    if (on_array : bool) then
      on_cache <- OS.isfile cache_file_name ;;
      (if (on_cache : bool) then OS.remove cache_file_name else ret tt) ;;
      ret false
    else ret true.

Definition _should_add_to_cache (self : t) (file cache_file_name : string)
    : M bool :=
  let array_file := array_file_of self file in
  on_cache <- OS.isfile cache_file_name ;;
  on_array <- (if (on_cache : bool) then OS.isfile array_file else ret false) ;;
  if (on_cache && on_array)%bool then
    OS.remove array_file ;;
    ret false
  else
    on_cache' <- OS.isfile cache_file_name ;;
    ret (negb on_cache').

Record loop_state : Type := {
  processed_files : gset string;
  media_to : list string;
  cache_files_to_exclude : list string
}.

(** [files_to_skip and file in files_to_skip] *)
Definition in_skip (files_to_skip : option (gset string)) (file : string) : bool :=
  match files_to_skip with
  | Some skip => bool_decide (file ∈ skip)
  | None => false
  end.

(** The body of [for file in files] in [filter_files]. *)
Definition filter_body (self : t) (destination : string)
    (media_to_cache : list string) (files_to_skip : option (gset string))
    (file : string) (st : loop_state) : M loop_state :=
  if bool_decide (file ∈ processed_files st) || in_skip files_to_skip file
  then ret st
  else
    let processed := {[file]} ∪ processed_files st in
    let cache_file_name := snd (_get_cache_paths self file) in
    let exclude := cache_files_to_exclude st ++ [cache_file_name] in
    let skipped := {| processed_files := processed;
                      media_to := media_to st;
                      cache_files_to_exclude := exclude |} in
    let added := {| processed_files := processed;
                    media_to := media_to st ++ [file];
                    cache_files_to_exclude := exclude |} in
    if String.eqb destination "array" then
      add <- _should_add_to_array self file cache_file_name media_to_cache ;;
      ret (if (add : bool) then added else skipped)
    else if String.eqb destination "cache" then
      add <- _should_add_to_cache self file cache_file_name ;;
      ret (if (add : bool) then added else skipped)
    else ret skipped.

(** The text written to the mover exclusion file: one item per line. *)
Definition exclude_text (items : list string) : string :=
  foldr (fun item text => item +:+ String "010" text) "" items.

Definition filter_files (self : t) (files : list string) (destination : string)
    (media_to_cache : option (list string))
    (files_to_skip : option (gset string)) : M (list string) :=
  let media_to_cache := default [] media_to_cache in
  match files with
  | [] => ret []
  | _ =>
      st <- for_each files
              (filter_body self destination media_to_cache files_to_skip)
              {| processed_files := ∅; media_to := [];
                 cache_files_to_exclude := [] |} ;;
      (if is_unraid self
       then OS.write_text (mover_cache_exclude_file self)
                          (exclude_text (cache_files_to_exclude st))
       else ret tt) ;;
      ret (media_to st)
  end.

End FileFilter.

(** *** class FileUtils (system_utils.py) *)

Module FileUtils.

(** The operations of [FileUtils] the program calls and whose code is
    not part of the sources: they are taken as given.  Sizes are pairs
    of a number and a unit, read off the files without changing them.
    Python floats are kept as exact rationals. *)
Record t : Type := {
  move_file : string -> string -> M unit;
  get_total_size_of_files : gmap string string -> list string -> Q * string;
  get_free_space : gmap string string -> string -> Q * string
}.

(** Modelled from the spec: [FileUtils.create_directory_with_permissions]
    of system_utils.py, which is not among the sources.  "Before
    attempting any move, the destination directory for the file is
    created if absent, with permissions/ownership copied from an existing
    reference directory".  Permissions are not part of the world. *)
Definition create_directory_with_permissions (path src_file_for_permissions : string)
    : M unit :=
  modify (set_dirs (fun ds => {[path]} ∪ ds)).

End FileUtils.

(** *** class FileMover *)

Module FileMover.
Import PyStr PosixPath.

Record t : Type := {
  real_source : string;
  cache_dir : string;
  is_unraid : bool;
  file_utils : FileUtils.t;
  debug : bool
}.

(** [here] is the working directory, which [os.path.relpath] consults
    for paths that are not absolute. *)
Definition _get_paths (self : t) (here file_to_move : string)
    : result (string * string * string * string) :=
  let user_path := dirname file_to_move in
  match relpath here user_path (real_source self) with
  | None => Raise (ValueError "no path specified")
  | Some relative_path =>
      let cache_path := join2 (cache_dir self) relative_path in
      let cache_file_name := join2 cache_path (basename file_to_move) in
      let user_path :=
        if is_unraid self
        then replace_1 user_path "/mnt/user/" "/mnt/user0/"
        else user_path in
      let user_file_name := join2 user_path (basename file_to_move) in
      Return (user_path, cache_path, cache_file_name, user_file_name)
  end.

Definition _get_move_command (self : t) (destination cache_file_name
    user_path user_file_name cache_path : string) : M (option (string * string)) :=
  if String.eqb destination "array" then
    FileUtils.create_directory_with_permissions user_path cache_file_name ;;
    on_cache <- OS.isfile cache_file_name ;;
    ret (if (on_cache : bool) then Some (cache_file_name, user_path) else None)
  else if String.eqb destination "cache" then
    FileUtils.create_directory_with_permissions cache_path user_file_name ;;
    on_cache <- OS.isfile cache_file_name ;;
    ret (if (on_cache : bool) then None else Some (user_file_name, cache_path))
  else ret None.

Definition _move_file (self : t) (move_cmd : string * string) : M nat :=
  let (src, dest) := move_cmd in
  try_except
    (FileUtils.move_file (file_utils self) src dest ;; ret 0)
    (fun e => ret 1).

(** The worker pool is run one command after the other, in the order of
    [move_commands]; [ThreadPoolExecutor] refuses a pool without
    workers. *)
Definition _execute_move_commands (self : t) (move_commands : list (string * string))
    (max_concurrent_moves_array max_concurrent_moves_cache : Z)
    (destination : string) : M unit :=
  if debug self then
    for_each move_commands (fun move_cmd _ => OS.print (MoveCmd move_cmd)) tt
  else
    let max_concurrent_moves :=
      if String.eqb destination "array"
      then max_concurrent_moves_array else max_concurrent_moves_cache in
    if (max_concurrent_moves <=? 0)%Z
    then raise (ValueError "max_workers must be greater than 0")
    else
      results <- map_M (_move_file self) move_commands ;;
      let errors := List.filter (fun r => negb (Nat.eqb r 0)) results in
      OS.print (Finished (length errors)).

Record loop_state : Type := {
  processed_files : gset string;
  move_commands : list (string * string)
}.

(** The body of [for file_to_move in files] in [move_media_files]. *)
Definition plan_body (self : t) (destination : string) (file_to_move : string)
    (st : loop_state) : M loop_state :=
  if bool_decide (file_to_move ∈ processed_files st) then ret st
  else
    let processed := {[file_to_move]} ∪ processed_files st in
    here <- gets cwd ;;
    paths <- lift (_get_paths self here file_to_move) ;;
    let '(user_path, cache_path, cache_file_name, user_file_name) := paths in
    move <- _get_move_command self destination cache_file_name user_path
              user_file_name cache_path ;;
    ret {| processed_files := processed;
           move_commands :=
             match move with
             | Some cmd => move_commands st ++ [cmd]
             | None => move_commands st
             end |}.

(** The first loop of [move_media_files]: the move commands of a batch. *)
Definition plan_moves (self : t) (files : list string) (destination : string)
    : M (list (string * string)) :=
  st <- for_each files (plan_body self destination)
          {| processed_files := ∅; move_commands := [] |} ;;
  ret (move_commands st).

Definition move_media_files (self : t) (files : list string) (destination : string)
    (max_concurrent_moves_array max_concurrent_moves_cache : Z) : M unit :=
  move_commands <- plan_moves self files destination ;;
  _execute_move_commands self move_commands max_concurrent_moves_array
    max_concurrent_moves_cache destination.

End FileMover.

(** ** [plexcache_app.py]: move orchestration *)

Module PlexCacheApp.

Record t : Type := {
  debug : bool;
  file_utils : FileUtils.t;
  file_filter : FileFilter.t;
  file_mover : FileMover.t;
  media_to_cache : list string;
  media_to_array : list string;
  files_to_skip : list string;
  watched_move : bool;
  real_source : string;
  cache_dir : string;
  max_concurrent_moves_array : Z;
  max_concurrent_moves_cache : Z
}.

(** [LoggingManager.add_summary_message]: the message is appended when
    files have been moved before, and starts the summary otherwise;
    [files_moved] holds afterwards in either case. *)
Definition add_summary_message (message : event) : M unit :=
  modify (fun w =>
    set_summary
      (if files_moved w then summary_messages w ++ [message] else [message])
      true w).

(** [size_multipliers[unit]] *)
Definition size_multipliers (unit : string) : result Z :=
  if String.eqb unit "KB" then Return 0%Z
  else if String.eqb unit "MB" then Return 1%Z
  else if String.eqb unit "GB" then Return 2%Z
  else if String.eqb unit "TB" then Return 3%Z
  else Raise (KeyError unit).

(** [size * (1024 ** size_multipliers[unit])] *)
Definition to_bytes (size : Q) (unit : string) : result Q :=
  mult <~ size_multipliers unit ;;
  Return (size * inject_Z (1024 ^ mult))%Q.

(** [a > b] on numbers *)
Definition gt (a b : Q) : bool := negb (Qle_bool a b).

Definition _check_free_space_and_move_files (self : t) (media_files : list string)
    (destination real_source cache_dir : string) : M unit :=
  media_files_filtered <-
    FileFilter.filter_files (file_filter self) media_files destination
      (Some (media_to_cache self)) (Some (list_to_set (files_to_skip self))) ;;
  total <-
    gets (fun w => FileUtils.get_total_size_of_files (file_utils self) (files w)
                     media_files_filtered) ;;
  let '(total_size, total_size_unit) := total in
  if gt total_size 0 then
    OS.print (TotalSize destination total_size total_size_unit) ;;
    add_summary_message (TotalSize destination total_size total_size_unit) ;;
    free <-
      gets (fun w => FileUtils.get_free_space (file_utils self) (files w)
                       (if String.eqb destination "cache"
                        then cache_dir else real_source)) ;;
    let '(free_space, free_space_unit) := free in
    OS.print (FreeSpace destination free_space free_space_unit) ;;
    total_size_bytes <- lift (to_bytes total_size total_size_unit) ;;
    free_space_bytes <- lift (to_bytes free_space free_space_unit) ;;
    (if gt total_size_bytes free_space_bytes then
       if negb (debug self)
       then raise (SystemExit ("Not enough space on " +:+ destination +:+ " drive."))
       else OS.print (NotEnoughSpace destination)
     else ret tt) ;;
    OS.print (MovingMedia destination) ;;
    FileMover.move_media_files (file_mover self) media_files_filtered destination
      (max_concurrent_moves_array self) (max_concurrent_moves_cache self)
  else
    OS.print (NothingToMove destination) ;;
    moved <- gets files_moved ;;
    if (moved : bool) then ret tt
    else modify (fun w => set_summary [NoFilesToMove] (files_moved w) w).

(** The handler of both [except Exception as e] clauses of [_move_files]. *)
Definition on_move_error (self : t) (e : exn) : M unit :=
  if negb (debug self)
  then raise (SystemExit ("Error: " +:+ exn_str e))
  else OS.print (ErrorMsg ("Error: " +:+ exn_str e)).

Definition _move_files (self : t) : M unit :=
  (if watched_move self then
     try_except
       (_check_free_space_and_move_files self (media_to_array self) "array"
          (real_source self) (cache_dir self))
       (on_move_error self)
   else ret tt) ;;
  try_except
    (_check_free_space_and_move_files self (media_to_cache self) "cache"
       (real_source self) (cache_dir self))
    (on_move_error self).

End PlexCacheApp.

(** ** Notions used in the statements *)

(** The paths a loop over [files] acts on: the first occurrence of every
    path that is not to be skipped, in input order.  [seen] holds the
    paths already processed. *)
Fixpoint considered (files_to_skip : option (gset string)) (seen : gset string)
    (files : list string) : list string :=
  match files with
  | [] => []
  | file :: rest =>
      if bool_decide (file ∈ seen) || FileFilter.in_skip files_to_skip file
      then considered files_to_skip seen rest
      else file :: considered files_to_skip ({[file]} ∪ seen) rest
  end.

(** A file is on both tiers when its cache copy and its array copy are
    regular files of the world. *)
Definition on_both_tiers (self : FileFilter.t) (w : world) (file : string) : Prop :=
  is_Some (files w !! snd (FileFilter._get_cache_paths self file))
  ∧ is_Some (files w !! FileFilter.array_file_of self file).

(** The decision [filter_files] takes for one file, in closed form:
    whether the file joins the batch, and the world left behind. *)
Definition decide_placement (self : FileFilter.t) (destination : string)
    (media_to_cache : list string) (file : string) (w : world) : bool * world :=
  let cache_file_name := snd (FileFilter._get_cache_paths self file) in
  let array_file := FileFilter.array_file_of self file in
  let on_cache := bool_decide (is_Some (files w !! cache_file_name)) in
  let on_array := bool_decide (is_Some (files w !! array_file)) in
  if String.eqb destination "array" then
    if bool_decide (file ∈ media_to_cache) then (false, w)
    else if on_array then (false, set_files (delete cache_file_name) w)
    else (true, w)
  else if String.eqb destination "cache" then
    if on_cache && on_array then (false, set_files (delete array_file) w)
    else (negb on_cache, w)
  else (false, w).

(** Everything but the file map is the same in both worlds. *)
Definition same_but_files (w w' : world) : Prop :=
  dirs w' = dirs w ∧ denied w' = denied w ∧ cwd w' = cwd w
  ∧ stdout w' = stdout w ∧ summary_messages w' = summary_messages w
  ∧ files_moved w' = files_moved w.

(** The cache copy of a file, as [filter_files] computes it. *)
Definition cache_file_name_of (self : FileFilter.t) (file : string) : string :=
  snd (FileFilter._get_cache_paths self file).

(** The state of the loop of [filter_files] after a file that is neither
    skipped nor a repetition: [add] tells whether the file joined the
    batch. *)
Definition next_state (self : FileFilter.t) (file : string) (add : bool)
    (st : FileFilter.loop_state) : FileFilter.loop_state :=
  {| FileFilter.processed_files := {[file]} ∪ FileFilter.processed_files st;
     FileFilter.media_to :=
       if add then FileFilter.media_to st ++ [file] else FileFilter.media_to st;
     FileFilter.cache_files_to_exclude :=
       FileFilter.cache_files_to_exclude st ++ [cache_file_name_of self file] |}.

(** Which files a pass decides on: with destination cache all of them,
    with destination array those not destined for the cache. *)
Definition decided (destination : string) (media_to_cache : list string)
    (file : string) : Prop :=
  destination = "cache" ∨ (destination = "array" ∧ file ∉ media_to_cache).


(** The move command [_get_move_command] yields for the paths of a file,
    given the files of the world. *)
Definition move_command (destination : string) (fs : gmap string string)
    (paths : string * string * string * string) : option (string * string) :=
  let '(user_path, cache_path, cache_file_name, user_file_name) := paths in
  if String.eqb destination "array" then
    if bool_decide (is_Some (fs !! cache_file_name))
    then Some (cache_file_name, user_path) else None
  else if String.eqb destination "cache" then
    if bool_decide (is_Some (fs !! cache_file_name))
    then None else Some (user_file_name, cache_path)
  else None.

(** The directory [_get_move_command] makes sure of, if any. *)
Definition ensured_directory (destination : string)
    (paths : string * string * string * string) : gset string :=
  let '(user_path, cache_path, cache_file_name, user_file_name) := paths in
  if String.eqb destination "array" then {[user_path]}
  else if String.eqb destination "cache" then {[cache_path]}
  else ∅.

(** The move command planned for one input file. *)
Definition planned (self : FileMover.t) (destination here : string)
    (fs : gmap string string) (file : string) : option (string * string) :=
  match FileMover._get_paths self here file with
  | Return paths => move_command destination fs paths
  | Raise _ => None
  end.

(** The same mover with other file utilities. *)
Definition with_file_utils (file_utils : FileUtils.t) (self : FileMover.t)
    : FileMover.t :=
  {| FileMover.real_source := FileMover.real_source self;
     FileMover.cache_dir := FileMover.cache_dir self;
     FileMover.is_unraid := FileMover.is_unraid self;
     FileMover.file_utils := file_utils;
     FileMover.debug := FileMover.debug self |}.

(** Planning touches no file: it can only add directories. *)
Definition plans_from (w w' : world) : Prop :=
  files w' = files w ∧ dirs w ⊆ dirs w' ∧ denied w' = denied w
  ∧ cwd w' = cwd w ∧ stdout w' = stdout w
  ∧ summary_messages w' = summary_messages w ∧ files_moved w' = files_moved w.

(** One of the two guarded calls of [_move_files]. *)
Definition guarded_check (self : PlexCacheApp.t) (media_files : list string)
    (destination : string) : M unit :=
  try_except
    (PlexCacheApp._check_free_space_and_move_files self media_files destination
       (PlexCacheApp.real_source self) (PlexCacheApp.cache_dir self))
    (PlexCacheApp.on_move_error self).

(** [c in s] for a character. *)
Fixpoint has_char (c : ascii) (s : string) : bool :=
  match s with
  | EmptyString => false
  | String a s' => Ascii.eqb a c || has_char c s'
  end.

(** [s[-1]], if any. *)
Fixpoint last_char (s : string) : option ascii :=
  match s with
  | EmptyString => None
  | String a s' =>
      match last_char s' with
      | None => Some a
      | Some d => Some d
      end
  end.

(** A proper path component: a non-empty name without a slash that is
    neither "." nor "..". *)
Definition is_component (c : string) : bool :=
  negb (PyStr.is_empty c) && negb (has_char PosixPath.sep c)
  && negb (String.eqb c ".") && negb (String.eqb c "..").

(** The absolute directory path with the given components and a trailing
    slash: [/c1/.../cn/], and [/] when there is none. *)
Definition directory_path (comps : list string) : string :=
  PyStr.join "/" ("" :: comps ++ [""]).

(** [/d1/d2/...]: every component with a slash in front. *)
Definition slash_prefixed (comps : list string) : string :=
  foldr (fun d text => String PosixPath.sep (d +:+ text)) "" comps.

(** The directory [/r1/.../rm/d1/.../dn] and a file [name] in it, below the
    directory with the components [root_comps]. *)
Definition directory_below (root_comps dir_comps : list string) : string :=
  PyStr.join "/" ("" :: root_comps ++ dir_comps).

Definition file_below (root_comps dir_comps : list string) (name : string) : string :=
  directory_path root_comps +:+ PyStr.join "/" (dir_comps ++ [name]).

(** The translation of one path as the specification words it: the first
    library folder found in the path is replaced at its first occurrence
    only. *)
Module Spec.
Import PyStr.

Fixpoint library_folder_loop (self : FilePathModifier.t) (j : nat)
    (folders : list string) (file_path : string) : result string :=
  match folders with
  | [] => Return file_path
  | folder :: rest =>
      if contains file_path folder then
        match FilePathModifier.nas_library_folders self !! j with
        | Some nas => Return (replace_1 file_path folder nas)
        | None => Raise (IndexError "list index out of range")
        end
      else library_folder_loop self (S j) rest file_path
  end.

Definition modify_file_path (self : FilePathModifier.t) (file_path : string)
    : result string :=
  let file_path :=
    replace_1 file_path (FilePathModifier.plex_source self)
              (FilePathModifier.real_source self) in
  library_folder_loop self 0 (FilePathModifier.plex_library_folders self) file_path.

End Spec.

(** Concrete configurations and worlds. *)
Module Examples.

Definition modifier : FilePathModifier.t :=
  {| FilePathModifier.plex_source := "/media/";
     FilePathModifier.real_source := "/mnt/user/";
     FilePathModifier.plex_library_folders := ["movies"; "tv"];
     FilePathModifier.nas_library_folders := ["films"; "tv"] |}.

Definition empty_world : world :=
  {| files := ∅; dirs := ∅; denied := ∅; cwd := "/"; stdout := [];
     summary_messages := []; files_moved := false |}.

Definition file_filter : FileFilter.t :=
  {| FileFilter.real_source := "/mnt/user/";
     FileFilter.cache_dir := "/mnt/cache/";
     FileFilter.is_unraid := true;
     FileFilter.mover_cache_exclude_file := "/tmp/exclude.txt" |}.

(** One film with a copy on the cache and a copy on the array. *)
Definition duplicated_world : world :=
  {| files := {[ "/mnt/cache/movies/a.mkv" := "A";
                 "/mnt/user0/movies/a.mkv" := "A" ]};
     dirs := {[ "/mnt/cache/movies"; "/mnt/user0/movies" ]};
     denied := ∅; cwd := "/"; stdout := [];
     summary_messages := []; files_moved := false |}.

(** File utilities that move nothing and report no size. *)
Definition idle_utils : FileUtils.t :=
  {| FileUtils.move_file := fun _ _ => ret tt;
     FileUtils.get_total_size_of_files := fun _ _ => (0%Q, "KB");
     FileUtils.get_free_space := fun _ _ => (0%Q, "KB") |}.

Definition file_mover (debug : bool) : FileMover.t :=
  {| FileMover.real_source := "/mnt/user/";
     FileMover.cache_dir := "/mnt/cache/";
     FileMover.is_unraid := true;
     FileMover.file_utils := idle_utils;
     FileMover.debug := debug |}.

(** File utilities that report five gigabytes to move and three
    gigabytes free. *)
Definition tight_utils : FileUtils.t :=
  {| FileUtils.move_file := fun _ _ => ret tt;
     FileUtils.get_total_size_of_files := fun _ _ => (5%Q, "GB");
     FileUtils.get_free_space := fun _ _ => (3%Q, "GB") |}.

Definition app (debug : bool) (file_utils : FileUtils.t) : PlexCacheApp.t :=
  {| PlexCacheApp.debug := debug;
     PlexCacheApp.file_utils := file_utils;
     PlexCacheApp.file_filter := file_filter;
     PlexCacheApp.file_mover := with_file_utils file_utils (file_mover debug);
     PlexCacheApp.media_to_cache := ["/mnt/user/movies/b.mkv"];
     PlexCacheApp.media_to_array := ["/mnt/user/movies/a.mkv"];
     PlexCacheApp.files_to_skip := [];
     PlexCacheApp.watched_move := true;
     PlexCacheApp.real_source := "/mnt/user/";
     PlexCacheApp.cache_dir := "/mnt/cache/";
     PlexCacheApp.max_concurrent_moves_array := 2;
     PlexCacheApp.max_concurrent_moves_cache := 5 |}.

(** A film that is on the array only. *)
Definition array_world : world :=
  {| files := {[ "/mnt/user0/movies/b.mkv" := "B" ]};
     dirs := {[ "/mnt/user0/movies" ]};
     denied := ∅; cwd := "/"; stdout := [];
     summary_messages := []; files_moved := false |}.

(** A directory with a subtitle, a film and its subtitles. *)
Definition subtitle_world : world :=
  {| files := {[ "/mnt/user/movies/show.srt" := "1";
                 "/mnt/user/movies/show.mkv" := "film";
                 "/mnt/user/movies/show.en.vtt" := "2";
                 "/mnt/user/movies/other.srt" := "3" ]};
     dirs := {[ "/mnt/user/movies" ]};
     denied := ∅; cwd := "/"; stdout := [];
     summary_messages := []; files_moved := false |}.

End Examples.

(** ** Further notions used in the statements *)

(** What [_find_subtitle_files] finds in a directory that can be listed. *)
Definition found_subtitles (self : SubtitleFinder.t) (w : world)
    (directory_path file : string) : list string :=
  OS.path <$>
    List.filter
      (SubtitleFinder.is_subtitle_of self file
         (fst (PosixPath.splitext (PosixPath.basename file))))
      (OS.entries w directory_path).

(** The subtitles [get_media_subtitles] adds for one media file: those of
    its directory, when that directory exists and can be listed. *)
Definition subtitles_of (self : SubtitleFinder.t) (w : world) (file : string)
    : list string :=
  let directory_path := PosixPath.dirname file in
  if bool_decide (directory_path ∈ dirs w)
     && negb (bool_decide (directory_path ∈ denied w))
  then found_subtitles self w directory_path file
  else [].

(** [[f(x) for x in xs]] for a function that may raise: the first failure
    is the failure of the whole. *)
Fixpoint map_result {A B} (f : A -> result B) (xs : list A) : result (list B) :=
  match xs with
  | [] => Return []
  | x :: xs' =>
      y <~ f x ;;
      ys <~ map_result f xs' ;;
      Return (y :: ys)
  end.

(** A path is retained by [modify_file_paths] but cannot be translated: the
    first library folder found in it has no NAS folder at its index. *)
Definition lacks_nas_folder (self : FilePathModifier.t) (file_path : string) : Prop :=
  let translated :=
    PyStr.replace_1 file_path (FilePathModifier.plex_source self)
      (FilePathModifier.real_source self) in
  PyStr.startswith file_path (FilePathModifier.plex_source self) = true
  ∧ ∃ pre folder post,
      FilePathModifier.plex_library_folders self = pre ++ folder :: post
      ∧ Forall (fun f => PyStr.contains translated f = false) pre
      ∧ PyStr.contains translated folder = true
      ∧ length (FilePathModifier.nas_library_folders self) ≤ length pre.

(** Why a file is in the batch of a pass: for the array, it is not
    destined for the cache and has no array copy; for the cache, it has no
    cache copy. *)
Definition admitted (self : FileFilter.t) (destination : string)
    (media_to_cache : list string) (w : world) (file : string) : Prop :=
  (destination = "array" ∧ (file ∉ media_to_cache)
   ∧ files w !! FileFilter.array_file_of self file = None)
  ∨ (destination = "cache" ∧ files w !! cache_file_name_of self file = None).


(** The initial state of the loop of [filter_files]. *)
Definition filter_start : FileFilter.loop_state :=
  {| FileFilter.processed_files := ∅; FileFilter.media_to := [];
     FileFilter.cache_files_to_exclude := [] |}.

(** The units [_check_free_space_and_move_files] can convert. *)
Definition known_units : list string := ["KB"; "MB"; "GB"; "TB"].

(** The world once a batch of positive size has been announced: the total
    size printed and added to the summary, the free space printed. *)
Definition announced (destination : string) (total free : Q * string) (w : world)
    : world :=
  let message := TotalSize destination (fst total) (snd total) in
  set_stdout (fun out => out ++ [FreeSpace destination (fst free) (snd free)])
    (set_summary
       (if files_moved w then summary_messages w ++ [message] else [message])
       true
       (set_stdout (fun out => out ++ [message]) w)).

(** The world after a batch without size: "nothing to move" printed, and
    the summary replaced when no files have been moved before. *)
Definition nothing_moved (destination : string) (w : world) : world :=
  let w' := set_stdout (fun out => out ++ [NothingToMove destination]) w in
  if files_moved w then w' else set_summary [NoFilesToMove] false w'.

(** The summary is left as it is. *)
Definition same_summary (w w' : world) : Prop :=
  summary_messages w' = summary_messages w ∧ files_moved w' = files_moved w.

Definition is_total_size (e : event) : bool :=
  match e with
  | TotalSize _ _ _ => true
  | _ => false
  end.

(** The summary tells what happened: once files have been moved it lists
    the sizes moved and nothing else, and before that it only says that
    there were no files to move. *)
Definition summary_ok (w : world) : Prop :=
  if files_moved w
  then summary_messages w ≠ []
       ∧ Forall (fun e => is_total_size e = true) (summary_messages w)
  else summary_messages w = [NoFilesToMove].

(** What a reported size stands for: the units are KB, MB, GB and TB, each
    1024 times the one before, and a kilobyte is 1024 bytes. *)
Definition unit_table : list (string * Q) :=
  [("KB", 1024%Q); ("MB", 1048576%Q); ("GB", 1073741824%Q);
   ("TB", 1099511627776%Q)].

Definition unit_bytes (unit : string) : option Q :=
  (list_to_map unit_table : gmap string Q) !! unit.

(** The number of bytes a pair of a size and a unit stands for. *)
Definition size_in_bytes (reported : Q * string) : option Q :=
  (fun bytes => fst reported * bytes)%Q <$> unit_bytes (snd reported).



(** * Properties *)

(** ** Strings *)

Section strings.
Import PyStr.

Lemma append_cons a s t : String a s +:+ t = String a (s +:+ t).
Proof. reflexivity. Qed.

Lemma append_nil_l s : "" +:+ s = s.
Proof. reflexivity. Qed.

Lemma append_nil_r s : s +:+ "" = s.
Proof. induction s as [|a s IH]; [done|]. by rewrite append_cons, IH. Qed.

Lemma append_assoc s t u : (s +:+ t) +:+ u = s +:+ t +:+ u.
Proof. induction s as [|a s IH]; [done|]. by rewrite !append_cons, IH. Qed.

Lemma startswith_app p r : startswith (p +:+ r) p = true.
Proof.
  induction p as [|a p IH]; [done|].
  rewrite append_cons. simpl. by rewrite Ascii.eqb_refl, IH.
Qed.

Lemma str_drop_app p r : str_drop (String.length p) (p +:+ r) = r.
Proof. induction p as [|a p IH]; [by destruct r|]. by rewrite append_cons. Qed.

(** On a string that starts with [old], [replace_1] rewrites exactly
    that leading occurrence. *)
Lemma replace_1_prefix old new rest :
  replace_1 (old +:+ rest) old new = new +:+ rest.
Proof.
  destruct old as [|a old].
  - destruct rest; reflexivity.
  - rewrite append_cons. unfold replace_1; fold replace_1.
    rewrite <- append_cons, startswith_app, str_drop_app. reflexivity.
Qed.

End strings.

(** ** PathTranslator: [FilePathModifier.modify_file_paths] *)

Section path_translator.
Import PyStr FilePathModifier.
Variable self : FilePathModifier.t.

Lemma library_folder_loop_returns j folders file_path :
  j + length folders ≤ length (nas_library_folders self) →
  ∃ out, library_folder_loop self j folders file_path = Return out.
Proof.
  revert j. induction folders as [|folder rest IH]; intros j Hlen; simpl in *.
  - eauto.
  - destruct (contains file_path folder).
    + destruct (lookup_lt_is_Some_2 (nas_library_folders self) j) as [nas ->];
        [lia | eauto].
    + apply IH. lia.
Qed.

Lemma modify_file_path_returns file_path :
  length (plex_library_folders self) ≤ length (nas_library_folders self) →
  ∃ out, modify_file_path self file_path = Return out.
Proof. intros H. by apply library_folder_loop_returns. Qed.

(** The indexed loop rewrites the list position by position. *)
Lemma enumerate_loop_spec todo done :
  Forall (fun file_path => ∃ out, modify_file_path self file_path = Return out) todo →
  ∃ out,
    enumerate_loop self (length todo) (length done) (done ++ todo)
      = Return (done ++ out)
    ∧ Forall2 (fun file_path out_path =>
                 modify_file_path self file_path = Return out_path) todo out.
Proof.
  revert done. induction todo as [|x todo IH]; intros done Hall.
  - exists []. split; [done | constructor].
  - apply Forall_cons in Hall as [[y Hy] Hall]. simpl.
    rewrite list_lookup_middle by done. rewrite Hy. simpl.
    replace (<[length done := y]> (done ++ x :: todo))
      with ((done ++ [y]) ++ todo).
    2:{ rewrite insert_app_r_alt by lia. rewrite Nat.sub_diag. simpl.
        by rewrite <- app_assoc. }
    replace (S (length done)) with (length (done ++ [y]))
      by (rewrite length_app; simpl; lia).
    destruct (IH (done ++ [y]) Hall) as (out & -> & Hout).
    exists (y :: out). split; [by rewrite <- app_assoc | by constructor].
Qed.

(** C6. For every input sequence, [modify_file_paths] keeps exactly the
    paths that start with the logical source prefix, returns their
    translations in the order of the input, and returns the empty list
    (a list, never [None]) for an empty or missing input.  The library
    folder lists are paired: every logical folder has its physical
    counterpart. *)
Theorem modify_file_paths_filters_in_order (files : list string) :
  length (plex_library_folders self) ≤ length (nas_library_folders self) →
  (∃ out,
     modify_file_paths self (Some files) = Return out
     ∧ Forall2 (fun file_path out_path =>
                  modify_file_path self file_path = Return out_path)
         (filter (fun file_path => startswith file_path (plex_source self) = true) files)
         out)
  ∧ modify_file_paths self (Some []) = Return []
  ∧ modify_file_paths self None = Return [].
Proof.
  intros Hlen. split; [|done].
  unfold modify_file_paths.
  set (kept := filter _ files).
  destruct (enumerate_loop_spec kept []) as (out & Heq & Hout).
  - apply Forall_forall. intros x _. by apply modify_file_path_returns.
  - exists out. simpl in Heq. by rewrite Heq.
Qed.

Lemma library_folder_loop_first_match j pre folder post file_path nas :
  Forall (fun f => contains file_path f = false) pre →
  contains file_path folder = true →
  nas_library_folders self !! (j + length pre) = Some nas →
  library_folder_loop self j (pre ++ folder :: post) file_path
    = Return (replace file_path folder nas).
Proof.
  revert j. induction pre as [|f pre IH]; intros j Hpre Hin Hnas; simpl.
  - rewrite Hin. simpl in Hnas. rewrite Nat.add_0_r in Hnas. by rewrite Hnas.
  - apply Forall_cons in Hpre as [-> Hpre].
    apply IH; [done..|]. simpl in Hnas.
    by replace (S j + length pre) with (j + S (length pre)) by lia.
Qed.

Lemma library_folder_loop_no_match j folders file_path :
  Forall (fun f => contains file_path f = false) folders →
  library_folder_loop self j folders file_path = Return file_path.
Proof.
  revert j. induction folders as [|f folders IH]; intros j Hall; simpl; [done|].
  apply Forall_cons in Hall as [-> Hall]. by apply IH.
Qed.

(** C7, as the code has it.  A retained path [plex_source ++ rest] first
    becomes [real_source ++ rest] (only the leading occurrence of the
    logical prefix is rewritten).  Then the library folders are scanned
    in order and only the first one found in the path is substituted,
    at every place where it occurs; when none is found the path stays as
    it is. *)
Theorem modify_file_path_first_folder_everywhere (rest : string) :
  let file_path := real_source self +:+ rest in
  (∀ pre folder post nas,
     plex_library_folders self = pre ++ folder :: post →
     Forall (fun f => contains file_path f = false) pre →
     contains file_path folder = true →
     nas_library_folders self !! length pre = Some nas →
     modify_file_path self (plex_source self +:+ rest)
       = Return (replace file_path folder nas))
  ∧ (Forall (fun f => contains file_path f = false) (plex_library_folders self) →
     modify_file_path self (plex_source self +:+ rest) = Return file_path).
Proof.
  intros file_path. unfold modify_file_path. rewrite replace_1_prefix.
  fold file_path. split.
  - intros pre folder post nas -> Hpre Hin Hnas.
    by apply library_folder_loop_first_match.
  - apply library_folder_loop_no_match.
Qed.

End path_translator.

Lemma modify_file_paths_filters_in_order_witness :
  ∃ out,
    FilePathModifier.modify_file_paths Examples.modifier
      (Some ["/media/movies/test.mkv"; "/other/path/file.mkv";
             "/media/tv/show/s01e01.mkv"]) = Return out
    ∧ out = ["/mnt/user/films/test.mkv"; "/mnt/user/tv/show/s01e01.mkv"].
Proof.
  destruct (modify_file_paths_filters_in_order Examples.modifier
              ["/media/movies/test.mkv"; "/other/path/file.mkv";
               "/media/tv/show/s01e01.mkv"]) as [(out & Heq & _) _].
  - simpl. lia.
  - exists out. split; [exact Heq|].
    vm_compute in Heq. by injection Heq as <-.
Defined.

(** C7, as the specification words it, fails: a library folder that occurs
    twice in a path is replaced at both places, not only at the first. *)
Lemma modify_file_path_replaces_every_occurrence :
  FilePathModifier.modify_file_path Examples.modifier "/media/movies/movies2/a.mkv"
    = Return "/mnt/user/films/films2/a.mkv"
  ∧ Spec.modify_file_path Examples.modifier "/media/movies/movies2/a.mkv"
    = Return "/mnt/user/films/movies2/a.mkv"
  ∧ FilePathModifier.modify_file_path Examples.modifier "/media/movies/movies2/a.mkv"
    ≠ Spec.modify_file_path Examples.modifier "/media/movies/movies2/a.mkv".
Proof. repeat split; [vm_compute; reflexivity..|]. vm_compute. discriminate. Qed.

Lemma modify_file_path_first_folder_everywhere_witness :
  FilePathModifier.modify_file_path Examples.modifier "/media/movies/movies2/a.mkv"
    = Return "/mnt/user/films/films2/a.mkv".
Proof.
  exact (proj1 (modify_file_path_first_folder_everywhere Examples.modifier
                  "movies/movies2/a.mkv")
           [] "movies" ["tv"] "films" eq_refl (Forall_nil_2 _) eq_refl eq_refl).
Defined.

(** ** The world and the monad *)

Section world_facts.

Lemma world_eq w1 w2 :
  files w1 = files w2 → dirs w1 = dirs w2 → denied w1 = denied w2 →
  cwd w1 = cwd w2 → stdout w1 = stdout w2 →
  summary_messages w1 = summary_messages w2 → files_moved w1 = files_moved w2 →
  w1 = w2.
Proof. destruct w1, w2; simpl; by intros -> -> -> -> -> -> ->. Qed.

Lemma set_files_delete_absent p w :
  files w !! p = None → set_files (delete p) w = w.
Proof. intros H. apply world_eq; simpl; try done. by apply delete_id. Qed.

Lemma same_but_files_refl w : same_but_files w w.
Proof. by repeat split. Qed.

Lemma same_but_files_trans w1 w2 w3 :
  same_but_files w1 w2 → same_but_files w2 w3 → same_but_files w1 w3.
Proof.
  intros (?&?&?&?&?&?) (?&?&?&?&?&?). repeat split; congruence.
Qed.

Lemma same_but_files_set_files f w : same_but_files w (set_files f w).
Proof. by repeat split. Qed.

End world_facts.

(** ** PlacementDecider: [FileFilter.filter_files] *)

Section placement_decider.
Import PyStr PosixPath FileFilter.
Variable self : FileFilter.t.

Lemma should_add_to_array_run file cache_file_name media_to_cache w :
  _should_add_to_array self file cache_file_name media_to_cache w =
    if bool_decide (file ∈ media_to_cache) then (Return false, w)
    else if bool_decide (is_Some (files w !! array_file_of self file))
    then (Return false, set_files (delete cache_file_name) w)
    else (Return true, w).
Proof.
  unfold _should_add_to_array. case_bool_decide; [done|].
  unfold bind, OS.isfile, gets, ret. case_bool_decide; [|done].
  case_bool_decide as Hc.
  - unfold OS.remove. by destruct Hc as [c ->].
  - apply eq_None_not_Some in Hc. by rewrite set_files_delete_absent.
Qed.

Lemma should_add_to_cache_run file cache_file_name w :
  _should_add_to_cache self file cache_file_name w =
    if bool_decide (is_Some (files w !! cache_file_name))
       && bool_decide (is_Some (files w !! array_file_of self file))
    then (Return false, set_files (delete (array_file_of self file)) w)
    else (Return (negb (bool_decide (is_Some (files w !! cache_file_name)))), w).
Proof.
  unfold _should_add_to_cache, bind, OS.isfile, gets, ret.
  destruct (bool_decide (is_Some (files w !! cache_file_name))) eqn:Hc; simpl.
  - destruct (bool_decide (is_Some (files w !! array_file_of self file)))
      eqn:Ha; simpl.
    + unfold OS.remove. apply bool_decide_eq_true in Ha as [c Ha].
      by rewrite Ha.
    + by rewrite Hc.
  - by rewrite Hc.
Qed.

Lemma filter_body_run destination media_to_cache files_to_skip file st w :
  filter_body self destination media_to_cache files_to_skip file st w =
    if bool_decide (file ∈ processed_files st) || in_skip files_to_skip file
    then (Return st, w)
    else
      let d := decide_placement self destination media_to_cache file w in
      (Return (next_state self file (fst d) st), snd d).
Proof.
  unfold filter_body, decide_placement, next_state.
  destruct (_ || _); [done|].
  destruct (String.eqb destination "array").
  { unfold bind. rewrite should_add_to_array_run.
    repeat case_bool_decide; reflexivity. }
  destruct (String.eqb destination "cache"); [|done].
  unfold bind. rewrite should_add_to_cache_run.
  repeat case_bool_decide; reflexivity.
Qed.

(** A decision only ever deletes files. *)
Lemma decide_placement_shrinks destination media_to_cache file w :
  let w' := snd (decide_placement self destination media_to_cache file w) in
  files w' ⊆ files w ∧ same_but_files w w'.
Proof.
  unfold decide_placement.
  repeat (case_match; simpl);
    (split; [done || apply delete_subseteq
            | apply same_but_files_refl || apply same_but_files_set_files]).
Qed.

Lemma on_both_tiers_weaken w w' file :
  files w' ⊆ files w → on_both_tiers self w' file → on_both_tiers self w file.
Proof.
  intros Hsub [[c Hc] [a Ha]].
  split; eexists; eapply lookup_weaken; eauto.
Qed.

Lemma considered_elem files_to_skip seen inputs file :
  file ∈ considered files_to_skip seen inputs
  ↔ file ∈ inputs ∧ (file ∉ seen) ∧ (in_skip files_to_skip file = false).
Proof.
  revert seen. induction inputs as [|x inputs IH]; intros seen; simpl.
  - set_solver.
  - destruct (bool_decide (x ∈ seen)) eqn:Hseen; simpl.
    { apply bool_decide_eq_true in Hseen. rewrite IH. set_solver. }
    apply bool_decide_eq_false in Hseen.
    destruct (in_skip files_to_skip x) eqn:Hskip.
    { rewrite IH. split; [set_solver|].
      intros (Hin & ? & ?). apply elem_of_cons in Hin as [->|?]; [congruence|done]. }
    rewrite elem_of_cons, IH. split.
    + intros [->|(?&?&?)]; set_solver.
    + intros (Hin & ? & ?). apply elem_of_cons in Hin as [->|?]; [by left|].
      destruct (decide (file = x)) as [->|]; [by left | right; set_solver].
Qed.


Lemma considered_NoDup files_to_skip seen inputs :
  NoDup (considered files_to_skip seen inputs).
Proof.
  revert seen. induction inputs as [|x inputs IH]; intros seen; simpl.
  - constructor.
  - destruct (_ || _); [apply IH|].
    constructor; [|apply IH]. rewrite considered_elem. set_solver.
Qed.

(** The loop of [filter_files] always runs to its end; it records the
    cache path of every considered file and only ever deletes files. *)
Lemma filter_loop_spec destination media_to_cache files_to_skip inputs st w :
  ∃ st' w',
    for_each inputs (filter_body self destination media_to_cache files_to_skip) st w
      = (Return st', w')
    ∧ processed_files st'
      = list_to_set (considered files_to_skip (processed_files st) inputs)
        ∪ processed_files st
    ∧ cache_files_to_exclude st'
      = cache_files_to_exclude st
        ++ (cache_file_name_of self
              <$> considered files_to_skip (processed_files st) inputs)
    ∧ files w' ⊆ files w ∧ same_but_files w w'.
Proof.
  revert st w. induction inputs as [|x inputs IH]; intros st w; simpl.
  - exists st, w. unfold ret. rewrite app_nil_r.
    repeat split; try done. set_solver.
  - unfold bind at 1. rewrite filter_body_run.
    destruct (_ || _) eqn:Hskip; [apply IH|]. simpl.
    set (d := decide_placement self destination media_to_cache x w).
    destruct (IH (next_state self x (fst d) st) (snd d))
      as (st' & w' & -> & Hproc & Hexcl & Hsub & Hsame).
    destruct (decide_placement_shrinks destination media_to_cache x w)
      as [Hsub1 Hsame1]. fold d in Hsub1, Hsame1.
    exists st', w'. simpl in *. split; [done|]. split; [|split; [|split]].
    + rewrite Hproc. set_solver.
    + rewrite Hexcl. by rewrite <- app_assoc.
    + by etrans.
    + by eapply same_but_files_trans.
Qed.

Lemma decide_placement_separates destination media_to_cache file w :
  decided destination media_to_cache file →
  ¬ on_both_tiers self (snd (decide_placement self destination media_to_cache file w)) file.
Proof.
  unfold decide_placement, on_both_tiers.
  intros [-> | [-> Hnot]]; simpl.
  - destruct (bool_decide (is_Some (files w !! _))) eqn:Hc; simpl.
    + destruct (bool_decide (is_Some (files w !! array_file_of self file)))
        eqn:Ha; simpl.
      * rewrite lookup_delete_eq. by intros [_ [? ?]].
      * apply bool_decide_eq_false in Ha. tauto.
    + apply bool_decide_eq_false in Hc. tauto.
  - rewrite bool_decide_eq_false_2 by done.
    destruct (bool_decide (is_Some (files w !! array_file_of self file)))
      eqn:Ha; simpl.
    + rewrite lookup_delete_eq. by intros [[? ?] _].
    + apply bool_decide_eq_false in Ha. tauto.
Qed.

Lemma filter_loop_separates destination media_to_cache files_to_skip inputs :
  ∀ st w st' w',
    for_each inputs (filter_body self destination media_to_cache files_to_skip) st w
      = (Return st', w') →
    ∀ file,
      decided destination media_to_cache file →
      (file ∈ processed_files st → ¬ on_both_tiers self w file) →
      file ∈ processed_files st' → ¬ on_both_tiers self w' file.
Proof.
  induction inputs as [|x inputs IH]; intros st w st' w' Hrun file Hdec Hbefore Hin.
  - simpl in Hrun. injection Hrun as <- <-. auto.
  - simpl in Hrun. unfold bind at 1 in Hrun. rewrite filter_body_run in Hrun.
    destruct (_ || _) eqn:Hskip; [by eapply IH|]. simpl in Hrun.
    eapply IH; [exact Hrun | done | | done].
    simpl. intros Hx.
    destruct (decide (file = x)) as [->|Hne].
    + by apply decide_placement_separates.
    + intros Hboth. apply Hbefore; [set_solver|].
      eapply on_both_tiers_weaken; [|exact Hboth].
      apply decide_placement_shrinks.
Qed.

End placement_decider.

Section placement_properties.
Import PyStr PosixPath FileFilter.
Variable self : FileFilter.t.

Lemma filter_files_run inputs destination media_to_cache files_to_skip w :
  inputs ≠ [] →
  ∃ st' w1,
    for_each inputs
      (filter_body self destination (default [] media_to_cache) files_to_skip)
      {| processed_files := ∅; media_to := []; cache_files_to_exclude := [] |} w
      = (Return st', w1)
    ∧ filter_files self inputs destination media_to_cache files_to_skip w
      = (Return (media_to st'),
         if is_unraid self
         then set_files (<[mover_cache_exclude_file self :=
                            exclude_text (cache_files_to_exclude st')]>) w1
         else w1).
Proof.
  intros Hne.
  destruct (filter_loop_spec self destination (default [] media_to_cache)
              files_to_skip inputs
              {| processed_files := ∅; media_to := [];
                 cache_files_to_exclude := [] |} w)
    as (st' & w1 & Hrun & _).
  exists st', w1. split; [done|].
  unfold filter_files. destruct inputs as [|x inputs]; [done|].
  unfold bind at 1. rewrite Hrun.
  by destruct (is_unraid self).
Qed.




Lemma filter_loop_unknown_destination destination media_to_cache files_to_skip inputs :
  destination ≠ "array" → destination ≠ "cache" →
  ∀ st w st' w',
    for_each inputs (filter_body self destination media_to_cache files_to_skip) st w
      = (Return st', w') →
    w' = w ∧ media_to st' = media_to st.
Proof.
  intros Ha Hc. apply String.eqb_neq in Ha, Hc.
  induction inputs as [|x inputs IH]; intros st w st' w' Hrun; simpl in Hrun.
  - by injection Hrun as <- <-.
  - unfold bind at 1 in Hrun. rewrite filter_body_run in Hrun.
    destruct (_ || _); [by eapply IH|].
    unfold decide_placement in Hrun. rewrite Ha, Hc in Hrun. simpl in Hrun.
    by apply IH in Hrun.
Qed.

End placement_properties.





(** ** TieredMover: [FileMover.move_media_files] *)

Section tiered_mover.
Import PyStr PosixPath FileMover.
Variable self : FileMover.t.

Lemma get_move_command_run destination user_path cache_path cache_file_name
    user_file_name w :
  let paths := (user_path, cache_path, cache_file_name, user_file_name) in
  _get_move_command self destination cache_file_name user_path user_file_name
    cache_path w
  = (Return (move_command destination (files w) paths),
     set_dirs (fun ds => ensured_directory destination paths ∪ ds) w).
Proof.
  unfold _get_move_command, move_command, ensured_directory; simpl.
  assert (set_dirs (fun ds => ∅ ∪ ds) w = w) as Hid.
  { apply world_eq; simpl; try done. set_solver. }
  destruct (String.eqb destination "array").
  { unfold bind, FileUtils.create_directory_with_permissions, modify,
      OS.isfile, gets, ret; simpl. by case_bool_decide. }
  destruct (String.eqb destination "cache"); [|by rewrite Hid].
  unfold bind, FileUtils.create_directory_with_permissions, modify,
    OS.isfile, gets, ret; simpl. by case_bool_decide.
Qed.

Lemma plan_body_run destination file st w :
  plan_body self destination file st w =
    if bool_decide (file ∈ processed_files st) then (Return st, w)
    else
      match _get_paths self (cwd w) file with
      | Raise e => (Raise e, w)
      | Return paths =>
          (Return {| processed_files := {[file]} ∪ processed_files st;
                     move_commands :=
                       match move_command destination (files w) paths with
                       | Some cmd => move_commands st ++ [cmd]
                       | None => move_commands st
                       end |},
           set_dirs (fun ds => ensured_directory destination paths ∪ ds) w)
      end.
Proof.
  unfold plan_body. case_bool_decide; [done|].
  unfold bind at 1. unfold gets. unfold bind at 1. unfold lift.
  destruct (_get_paths self (cwd w) file) as [[[[up cp] cfn] ufn]|e]; [|done].
  unfold bind. by rewrite get_move_command_run.
Qed.

Lemma plan_loop_frame destination inputs :
  ∀ st w r w',
    for_each inputs (plan_body self destination) st w = (r, w') →
    plans_from w w'
    ∧ ∀ e, r = Raise e → e = ValueError "no path specified".
Proof.
  induction inputs as [|x inputs IH]; intros st w r w' Hrun; simpl in Hrun.
  - injection Hrun as <- <-. by repeat split.
  - unfold bind at 1 in Hrun. rewrite plan_body_run in Hrun.
    case_bool_decide; [by eapply IH|].
    destruct (_get_paths self (cwd w) x) as [paths|e] eqn:Hpaths.
    + apply IH in Hrun as [(Hf & Hd & ? & ? & ? & ? & ?) He]. simpl in *.
      split; [|done]. repeat split; try done. set_solver.
    + injection Hrun as <- <-. split; [by repeat split|].
      intros e' [= <-]. unfold _get_paths in Hpaths.
      destruct (relpath _ _ _); [done | by injection Hpaths].
Qed.

(** The commands of a batch: one planned command at most for every
    distinct input path, in the order of first occurrence. *)
Lemma plan_loop_commands destination inputs :
  ∀ st w st' w',
    for_each inputs (plan_body self destination) st w = (Return st', w') →
    move_commands st'
    = move_commands st
      ++ omap (planned self destination (cwd w) (files w))
           (considered None (processed_files st) inputs).
Proof.
  induction inputs as [|x inputs IH]; intros st w st' w' Hrun; simpl in Hrun.
  - injection Hrun as <- <-. simpl. by rewrite app_nil_r.
  - unfold bind at 1 in Hrun. rewrite plan_body_run in Hrun. simpl.
    rewrite orb_false_r.
    case_bool_decide; [by eapply IH|].
    destruct (_get_paths self (cwd w) x) as [paths|e] eqn:Hpaths; [|done].
    apply IH in Hrun. simpl in Hrun. rewrite Hrun. simpl.
    unfold planned at 2. rewrite Hpaths.
    destruct (move_command destination (files w) paths); simpl;
      [by rewrite <- app_assoc | done].
Qed.

Lemma print_commands_run (cmds : list (string * string)) w :
  for_each cmds (fun move_cmd _ => OS.print (MoveCmd move_cmd)) tt w
  = (Return tt, set_stdout (fun out => out ++ (MoveCmd <$> cmds)) w).
Proof.
  revert w. induction cmds as [|cmd cmds IH]; intros w; simpl.
  - unfold ret. f_equal. apply world_eq; simpl; try done. by rewrite app_nil_r.
  - unfold bind, OS.print, modify. rewrite IH. f_equal.
    apply world_eq; simpl; try done. by rewrite <- app_assoc.
Qed.

Lemma for_each_ext {A S} (body1 body2 : A → S → M S) xs :
  (∀ x s w, body1 x s w = body2 x s w) →
  ∀ s w, for_each xs body1 s w = for_each xs body2 s w.
Proof.
  intros Hext. induction xs as [|x xs IH]; intros s w; simpl; [done|].
  unfold bind. rewrite Hext. destruct (body2 x s w) as [[s'|e] w']; [apply IH | done].
Qed.

Lemma get_paths_returns here file :
  is_empty (dirname file) = false →
  ∃ paths, _get_paths self here file = Return paths.
Proof.
  intros Hdir. unfold _get_paths, relpath. rewrite Hdir.
  destruct (_ ++ _); eauto.
Qed.

Lemma plan_loop_returns destination inputs :
  Forall (fun file => is_empty (dirname file) = false) inputs →
  ∀ st w, ∃ st' w',
    for_each inputs (plan_body self destination) st w = (Return st', w').
Proof.
  induction 1 as [|x inputs Hx _ IH]; intros st w; simpl; [by eexists _, _|].
  unfold bind at 1. rewrite plan_body_run.
  case_bool_decide; [apply IH|].
  destruct (get_paths_returns (cwd w) x Hx) as [paths ->]. apply IH.
Qed.

Lemma plan_loop_unknown_destination destination inputs :
  destination ≠ "array" → destination ≠ "cache" →
  Forall (fun file => is_empty (dirname file) = false) inputs →
  ∀ st w, ∃ st',
    for_each inputs (plan_body self destination) st w = (Return st', w)
    ∧ move_commands st' = move_commands st.
Proof.
  intros Ha Hc. apply String.eqb_neq in Ha, Hc.
  induction 1 as [|x inputs Hx _ IH]; intros st w; simpl; [by eexists|].
  unfold bind at 1. rewrite plan_body_run.
  case_bool_decide; [apply IH|].
  destruct (get_paths_returns (cwd w) x Hx) as [[[[up cp] cfn] ufn] ->].
  unfold move_command, ensured_directory. rewrite Ha, Hc.
  replace (set_dirs _ w) with w.
  - edestruct IH as (st' & -> & Hcmds). by exists st'.
  - apply world_eq; simpl; try done. set_solver.
Qed.

End tiered_mover.

Lemma plan_moves_any_utils (self : FileMover.t) file_utils inputs destination w :
  FileMover.plan_moves (with_file_utils file_utils self) inputs destination w
  = FileMover.plan_moves self inputs destination w.
Proof.
  unfold FileMover.plan_moves, bind.
  rewrite (for_each_ext
             (FileMover.plan_body (with_file_utils file_utils self) destination)
             (FileMover.plan_body self destination)); [done|].
  intros x s w0. rewrite !plan_body_run. reflexivity.
Qed.

Section mover_properties.
Import PyStr PosixPath FileMover.
Variable self : FileMover.t.

(** C4, as the code has it.  A command that moves a file to the array
    is planned only if the cache copy, its source, exists.  A command
    that moves a file to the cache is planned only if the cache copy does
    not exist; its source is not looked at.  Every distinct input path
    yields one command at most, however often it is repeated. *)
Theorem move_commands_follow_cache_copy inputs destination w :
  (∀ ops w',
     plan_moves self inputs destination w = (Return ops, w') →
     (destination = "array" →
      ∀ src dst, (src, dst) ∈ ops →
        is_Some (files w !! src)
        ∧ ∃ file cache_path user_file_name,
            file ∈ inputs
            ∧ _get_paths self (cwd w) file
              = Return (dst, cache_path, src, user_file_name))
     ∧ (destination = "cache" →
        ∀ src dst, (src, dst) ∈ ops →
          ∃ file user_path cache_file_name,
            file ∈ inputs
            ∧ _get_paths self (cwd w) file
              = Return (user_path, dst, cache_file_name, src)
            ∧ files w !! cache_file_name = None)
     ∧ ∃ kept,
         NoDup kept ∧ (∀ file, file ∈ kept ↔ file ∈ inputs)
         ∧ ops = omap (planned self destination (cwd w) (files w)) kept)
  ∧ (Forall (fun file => is_empty (dirname file) = false) inputs →
     ∃ ops w', plan_moves self inputs destination w = (Return ops, w')).
Proof.
  split.
  - intros ops w' Hrun. unfold plan_moves, bind in Hrun.
    destruct (for_each _ _ _ _) as [[st'|e] w1] eqn:Hloop; [|done].
    injection Hrun as <- <-.
    apply plan_loop_commands in Hloop. simpl in Hloop.
    assert (∀ src dst, (src, dst) ∈ move_commands st' →
              ∃ file paths, file ∈ inputs
                ∧ _get_paths self (cwd w) file = Return paths
                ∧ move_command destination (files w) paths = Some (src, dst))
      as Hops.
    { intros src dst. rewrite Hloop. rewrite list_elem_of_omap.
      intros (file & Hin & Hplanned). apply considered_elem in Hin as (Hin & _).
      unfold planned in Hplanned.
      destruct (_get_paths self (cwd w) file) as [paths|] eqn:Hpaths; [|done].
      by exists file, paths. }
    split; [|split].
    + intros -> src dst Hin.
      destruct (Hops _ _ Hin) as (file & [[[up cp] cfn] ufn] & Hfile & Hpaths & Hcmd).
      simpl in Hcmd. case_bool_decide as Hc; [|done]. injection Hcmd as <- <-.
      split; [done|]. eauto 10.
    + intros -> src dst Hin.
      destruct (Hops _ _ Hin) as (file & [[[up cp] cfn] ufn] & Hfile & Hpaths & Hcmd).
      simpl in Hcmd. case_bool_decide as Hc; [done|]. injection Hcmd as <- <-.
      apply eq_None_not_Some in Hc. eauto 10.
    + exists (considered None ∅ inputs). split; [apply considered_NoDup|].
      split; [|done]. intros file. rewrite considered_elem. set_solver.
  - intros Hall. unfold plan_moves, bind.
    destruct (plan_loop_returns self destination inputs Hall
                {| processed_files := ∅; move_commands := [] |} w)
      as (st' & w' & ->).
    by eexists _, _.
Qed.

(** C2, as the code has it.  In debug mode [move_media_files] moves and
    deletes nothing: the files of the world and their contents stay as
    they are, [move_file] is never called (the outcome does not depend
    on it), and the planned commands are only printed.  The destination
    directories are still made sure of while planning, so directories may
    appear. *)
Theorem debug_moves_no_file inputs destination
    (max_concurrent_moves_array max_concurrent_moves_cache : Z) w :
  debug self = true →
  ∃ r w',
    move_media_files self inputs destination max_concurrent_moves_array
      max_concurrent_moves_cache w = (r, w')
    ∧ files w' = files w
    ∧ dirs w ⊆ dirs w'
    ∧ (r = Return tt ∨ r = Raise (ValueError "no path specified"))
    ∧ (∀ cmds w1,
         plan_moves self inputs destination w = (Return cmds, w1) →
         r = Return tt ∧ stdout w' = stdout w ++ (MoveCmd <$> cmds))
    ∧ (∀ file_utils,
         move_media_files (with_file_utils file_utils self) inputs destination
           max_concurrent_moves_array max_concurrent_moves_cache w = (r, w')).
Proof.
  intros Hdebug.
  assert (∀ file_utils,
            move_media_files (with_file_utils file_utils self) inputs destination
              max_concurrent_moves_array max_concurrent_moves_cache w
            = move_media_files self inputs destination max_concurrent_moves_array
                max_concurrent_moves_cache w) as Hutils.
  { intros fu. unfold move_media_files, bind. rewrite plan_moves_any_utils.
    destruct (plan_moves self inputs destination w) as [[cmds|e] w1]; [|done].
    unfold _execute_move_commands. simpl. by rewrite Hdebug. }
  destruct (plan_moves self inputs destination w) as [[cmds|e] w1] eqn:Hplan.
  - assert (move_media_files self inputs destination max_concurrent_moves_array
              max_concurrent_moves_cache w
            = (Return tt,
               set_stdout (fun out => out ++ (MoveCmd <$> cmds)) w1)) as Hrun.
    { unfold move_media_files, bind. rewrite Hplan.
      unfold _execute_move_commands. rewrite Hdebug.
      apply print_commands_run. }
    unfold plan_moves, bind in Hplan.
    destruct (for_each _ _ _ _) as [[st'|e] w2] eqn:Hloop; [|done].
    injection Hplan as <- <-.
    apply plan_loop_frame in Hloop as [(Hf & Hd & _ & _ & Hout & _) _].
    eexists _, _. split; [exact Hrun|]. simpl.
    split; [done|]. split; [done|]. split; [by left|]. split.
    + intros cmds' w1' [= <- <-]. by rewrite Hout.
    + intros fu. by rewrite Hutils.
  - assert (move_media_files self inputs destination max_concurrent_moves_array
              max_concurrent_moves_cache w = (Raise e, w1)) as Hrun.
    { unfold move_media_files, bind. by rewrite Hplan. }
    unfold plan_moves, bind in Hplan.
    destruct (for_each _ _ _ _) as [[st'|e'] w2] eqn:Hloop; [done|].
    injection Hplan as <- <-.
    apply plan_loop_frame in Hloop as [(Hf & Hd & _) He].
    eexists _, _. split; [exact Hrun|].
    split; [done|]. split; [done|]. split; [right; f_equal; by apply He|].
    split; [done|]. intros fu. by rewrite Hutils.
Qed.

End mover_properties.

(** C3, as the code has it.  A destination other than "array" and "cache"
    raises nothing.  [filter_files] returns the empty batch and deletes no
    file (on Unraid it still writes the exclusion file).  For inputs that
    have a directory part, [move_media_files] plans no command, leaves the
    world as it is and returns; outside debug mode it reports zero
    errors. *)
Theorem unknown_destination_returns destination :
  destination ≠ "array" → destination ≠ "cache" →
  (∀ (self : FileFilter.t) inputs media_to_cache files_to_skip w,
     ∃ w',
       FileFilter.filter_files self inputs destination media_to_cache files_to_skip w
         = (Return [], w')
       ∧ same_but_files w w'
       ∧ (files w' = files w
          ∨ ∃ text, files w'
                    = <[FileFilter.mover_cache_exclude_file self := text]> (files w)))
  ∧ (∀ (self : FileMover.t) inputs
       (max_concurrent_moves_array max_concurrent_moves_cache : Z) w,
       Forall (fun file => PyStr.is_empty (PosixPath.dirname file) = false) inputs →
       FileMover.plan_moves self inputs destination w = (Return [], w)
       ∧ (FileMover.debug self = true →
          FileMover.move_media_files self inputs destination
            max_concurrent_moves_array max_concurrent_moves_cache w
          = (Return tt, w))
       ∧ (FileMover.debug self = false → (0 < max_concurrent_moves_cache)%Z →
          FileMover.move_media_files self inputs destination
            max_concurrent_moves_array max_concurrent_moves_cache w
          = (Return tt, set_stdout (fun out => out ++ [Finished 0]) w))).
Proof.
  intros Ha Hc. split.
  - intros self inputs media_to_cache files_to_skip w.
    destruct inputs as [|x inputs].
    { exists w. split; [done|]. split; [apply same_but_files_refl | by left]. }
    destruct (filter_files_run self (x :: inputs) destination media_to_cache
                files_to_skip w) as (st' & w1 & Hrun & ->); [done|].
    apply filter_loop_unknown_destination in Hrun as [-> ->]; [|done..].
    eexists. split; [reflexivity|].
    destruct (FileFilter.is_unraid self).
    + split; [apply same_but_files_set_files | right; by eexists].
    + split; [apply same_but_files_refl | by left].
  - intros self inputs a c w Hall.
    destruct (plan_loop_unknown_destination self destination inputs Ha Hc Hall
                {| FileMover.processed_files := ∅; FileMover.move_commands := [] |} w)
      as (st' & Hloop & Hcmds). simpl in Hcmds.
    assert (FileMover.plan_moves self inputs destination w = (Return [], w)) as Hplan.
    { unfold FileMover.plan_moves, bind. rewrite Hloop. unfold ret. by rewrite Hcmds. }
    split; [done|].
    unfold FileMover.move_media_files, bind. rewrite Hplan.
    unfold FileMover._execute_move_commands. split.
    + intros ->. done.
    + intros -> Hpos. apply String.eqb_neq in Ha. rewrite Ha.
      destruct (Z.leb_spec c 0); [lia|]. done.
Qed.

(** C4, as the specification words it, fails: for the cache a command is
    planned although its source does not exist, and two spellings of one
    path yield the same command twice. *)
Lemma move_planned_without_source :
  let inputs := ["/mnt/user/movies/a.mkv"; "/mnt/user/movies//a.mkv"] in
  let op := ("/mnt/user0/movies/a.mkv", "/mnt/cache/movies") in
  fst (FileMover.plan_moves (Examples.file_mover true) inputs "cache"
         Examples.empty_world) = Return [op; op]
  ∧ files Examples.empty_world !! fst op = None.
Proof. split; vm_compute; reflexivity. Qed.

Lemma move_commands_follow_cache_copy_witness :
  ∃ ops w',
    FileMover.plan_moves (Examples.file_mover true) ["/mnt/user/movies/a.mkv"]
      "array" Examples.duplicated_world = (Return ops, w')
    ∧ ∀ src dst, (src, dst) ∈ ops →
        is_Some (files Examples.duplicated_world !! src).
Proof.
  destruct (proj2 (move_commands_follow_cache_copy (Examples.file_mover true)
                     ["/mnt/user/movies/a.mkv"] "array" Examples.duplicated_world))
    as (ops & w' & Hrun).
  - repeat constructor.
  - exists ops, w'. split; [exact Hrun|].
    intros src dst Hin.
    destruct (proj1 (move_commands_follow_cache_copy (Examples.file_mover true)
                       ["/mnt/user/movies/a.mkv"] "array" Examples.duplicated_world)
                ops w' Hrun) as (Harray & _).
    exact (proj1 (Harray eq_refl src dst Hin)).
Defined.

(** C2, as the specification words it, fails: in debug mode the directory
    a file would be moved to is created. *)
Lemma debug_creates_directory :
  let w' := snd (FileMover.move_media_files (Examples.file_mover true)
                   ["/mnt/user/movies/a.mkv"] "cache" 1 1 Examples.empty_world) in
  ("/mnt/cache/movies" ∉ dirs Examples.empty_world)
  ∧ "/mnt/cache/movies" ∈ dirs w'.
Proof.
  split.
  - apply (bool_decide_unpack _). by vm_compute.
  - apply (bool_decide_unpack _). by vm_compute.
Qed.

Lemma debug_moves_no_file_witness :
  ∃ r w',
    FileMover.move_media_files (Examples.file_mover true)
      ["/mnt/user/movies/a.mkv"] "array" 1 1 Examples.duplicated_world = (r, w')
    ∧ files w' = files Examples.duplicated_world.
Proof.
  destruct (debug_moves_no_file (Examples.file_mover true)
              ["/mnt/user/movies/a.mkv"] "array" 1 1 Examples.duplicated_world)
    as (r & w' & Hrun & Hfiles & _).
  - reflexivity.
  - exists r, w'. split; [exact Hrun | exact Hfiles].
Defined.

(** C3, as the specification words it, fails: with a destination that is
    neither "array" nor "cache" both calls return as usual. *)
Lemma unknown_destination_returns_normally :
  fst (FileFilter.filter_files Examples.file_filter ["/mnt/user/movies/a.mkv"]
         "tape" None None Examples.duplicated_world) = Return []
  ∧ fst (FileMover.move_media_files (Examples.file_mover false)
           ["/mnt/user/movies/a.mkv"] "tape" 1 1 Examples.duplicated_world)
    = Return tt.
Proof. split; vm_compute; reflexivity. Qed.

Lemma unknown_destination_returns_witness :
  FileMover.plan_moves (Examples.file_mover false) ["/mnt/user/movies/a.mkv"]
    "tape" Examples.duplicated_world = (Return [], Examples.duplicated_world).
Proof.
  refine (proj1 (proj2 (unknown_destination_returns "tape" _ _)
                   (Examples.file_mover false) ["/mnt/user/movies/a.mkv"] 1%Z 1%Z
                   Examples.duplicated_world _)).
  - discriminate.
  - discriminate.
  - repeat constructor.
Defined.

(** ** CapacityGuard: [PlexCacheApp._check_free_space_and_move_files] *)

Lemma debug_move_frame (self : FileMover.t) inputs destination
    (max_concurrent_moves_array max_concurrent_moves_cache : Z) w r w' :
  FileMover.debug self = true →
  FileMover.move_media_files self inputs destination max_concurrent_moves_array
    max_concurrent_moves_cache w = (r, w') →
  files w' = files w
  ∧ (∃ cmds, stdout w' = stdout w ++ (MoveCmd <$> cmds))
  ∧ (r = Return tt ∨ r = Raise (ValueError "no path specified")).
Proof.
  intros Hdebug. unfold FileMover.move_media_files, FileMover.plan_moves, bind.
  destruct (for_each _ _ _ _) as [[st'|e] w1] eqn:Hloop;
    apply plan_loop_frame in Hloop as [(Hf & _ & _ & _ & Hout & _) He].
  - unfold ret, FileMover._execute_move_commands. rewrite Hdebug.
    rewrite print_commands_run. intros [= <- <-]. simpl.
    split; [done|]. split; [|by left]. exists (FileMover.move_commands st').
    by rewrite Hout.
  - intros [= <- <-]. split; [done|]. split.
    + exists []. simpl. by rewrite app_nil_r.
    + right. f_equal. by apply He.
Qed.

Lemma filter_files_returns (self : FileFilter.t) inputs destination media_to_cache
    files_to_skip w :
  ∃ batch w1,
    FileFilter.filter_files self inputs destination media_to_cache files_to_skip w
    = (Return batch, w1).
Proof.
  destruct inputs as [|x inputs]; [by eexists _, _|].
  destruct (filter_files_run self (x :: inputs) destination media_to_cache
              files_to_skip w) as (st' & w1 & _ & ->); [done|].
  by eexists _, _.
Qed.

Lemma gt_spec (a b : Q) : PlexCacheApp.gt a b = true ↔ (b < a)%Q.
Proof.
  unfold PlexCacheApp.gt. rewrite negb_true_iff. split.
  - intros Hle. apply Qnot_le_lt. intros H. apply Qle_bool_iff in H. congruence.
  - intros Hlt. destruct (Qle_bool a b) eqn:Hle; [|done].
    apply Qle_bool_iff in Hle. by apply Qlt_not_le in Hlt.
Qed.

Lemma gt_false (a b : Q) : (a <= b)%Q → PlexCacheApp.gt a b = false.
Proof.
  intros Hle. unfold PlexCacheApp.gt. apply negb_false_iff.
  by apply Qle_bool_iff.
Qed.

Lemma unit_bytes_inv unit bytes :
  unit_bytes unit = Some bytes → (unit, bytes) ∈ unit_table.
Proof. unfold unit_bytes. apply elem_of_list_to_map_2. Qed.

(** The comparison the code makes on its own conversion of the two
    reported sizes is the comparison of the numbers of bytes they stand
    for. *)
Lemma gate_fires (total free : Q * string) total_bytes free_bytes :
  size_in_bytes total = Some total_bytes →
  size_in_bytes free = Some free_bytes →
  (0 <= fst free)%Q → (free_bytes < total_bytes)%Q →
  PlexCacheApp.gt (fst total) 0 = true
  ∧ ∃ total_size free_space,
      PlexCacheApp.to_bytes (fst total) (snd total) = Return total_size
      ∧ PlexCacheApp.to_bytes (fst free) (snd free) = Return free_space
      ∧ PlexCacheApp.gt total_size free_space = true.
Proof.
  destruct total as [t tu], free as [f fu]. unfold size_in_bytes. simpl.
  destruct (unit_bytes tu) as [bt|] eqn:Htu; [|done].
  destruct (unit_bytes fu) as [bf|] eqn:Hfu; [|done].
  intros [= <-] [= <-] Hf Hlt.
  apply unit_bytes_inv in Htu, Hfu. unfold unit_table in Htu, Hfu.
  rewrite !elem_of_cons, elem_of_nil in Htu, Hfu.
  destruct Htu as [[= -> ->]|[[= -> ->]|[[= -> ->]|[[= -> ->]|[]]]]];
    destruct Hfu as [[= -> ->]|[[= -> ->]|[[= -> ->]|[[= -> ->]|[]]]]];
    (split; [apply gt_spec; lra|]);
    eexists _, _; (split; [reflexivity|]); (split; [reflexivity|]);
    apply gt_spec; unfold inject_Z;
    repeat match goal with
           | |- context [(1024 ^ ?k)%Z] =>
               let v := eval vm_compute in (1024 ^ k)%Z in
               change (1024 ^ k)%Z with v
           end;
    lra.
Qed.

Section capacity_guard.
Import PlexCacheApp.
Variable self : PlexCacheApp.t.

(** C5.  Let the batch be what [filter_files] keeps, and let the total
    size and the free space be reported in KB, MB, GB or TB.  When the
    bytes of the batch exceed the bytes free on the destination, then
    outside debug mode the check raises [SystemExit] with the message "Not
    enough space on ... drive.", which the handler of [_move_files] lets
    through, and no file has been moved and no directory made; in debug
    mode the condition is printed, the guarded call returns, and the files
    are those the filter left.  When the total size is not positive, the
    check prints "Nothing to move" and returns. *)
Theorem capacity_gate media_files destination w :
  ∃ batch w1,
    FileFilter.filter_files (file_filter self) media_files destination
      (Some (media_to_cache self)) (Some (list_to_set (files_to_skip self))) w
    = (Return batch, w1)
    ∧ let total :=
        FileUtils.get_total_size_of_files (file_utils self) (files w1) batch in
      let free :=
        FileUtils.get_free_space (file_utils self) (files w1)
          (if String.eqb destination "cache" then cache_dir self
           else real_source self) in
      (∀ total_in_bytes free_in_bytes,
         size_in_bytes total = Some total_in_bytes →
         size_in_bytes free = Some free_in_bytes →
         (0 <= fst free)%Q →
         (free_in_bytes < total_in_bytes)%Q →
         (debug self = false →
          ∃ w2,
            _check_free_space_and_move_files self media_files destination
              (real_source self) (cache_dir self) w
            = (Raise (SystemExit ("Not enough space on " +:+ destination +:+ " drive.")),
               w2)
            ∧ guarded_check self media_files destination w
              = (Raise (SystemExit ("Not enough space on " +:+ destination +:+ " drive.")),
                 w2)
            ∧ files w2 = files w1 ∧ dirs w2 = dirs w1)
         ∧ (debug self = true → FileMover.debug (file_mover self) = true →
            ∃ w2,
              guarded_check self media_files destination w = (Return tt, w2)
              ∧ files w2 = files w1
              ∧ NotEnoughSpace destination ∈ stdout w2))
      ∧ ((fst total <= 0)%Q →
         ∃ w2,
           _check_free_space_and_move_files self media_files destination
             (real_source self) (cache_dir self) w = (Return tt, w2)
           ∧ guarded_check self media_files destination w = (Return tt, w2)
           ∧ files w2 = files w1 ∧ dirs w2 = dirs w1
           ∧ stdout w2 = stdout w1 ++ [NothingToMove destination]).
Proof.
  destruct (filter_files_returns (file_filter self) media_files destination
              (Some (media_to_cache self)) (Some (list_to_set (files_to_skip self))) w)
    as (batch & w1 & Hfilter).
  exists batch, w1. split; [done|]. intros total free. split.
  - intros total_in_bytes free_in_bytes Hreported Hreported_free Hfree_pos Hexceeds.
    destruct (gate_fires total free _ _ Hreported Hreported_free Hfree_pos Hexceeds)
      as (Hpos & total_bytes & free_bytes & Htotal & Hfree & Hgt).
    clear Hreported Hreported_free Hfree_pos Hexceeds. split.
    + intros Hdebug.
      assert (∃ w2,
                _check_free_space_and_move_files self media_files destination
                  (real_source self) (cache_dir self) w
                = (Raise (SystemExit
                            ("Not enough space on " +:+ destination +:+ " drive.")),
                   w2)
                ∧ files w2 = files w1 ∧ dirs w2 = dirs w1) as (w2 & Hcheck & Hf & Hd).
      { unfold _check_free_space_and_move_files. unfold bind at 1. rewrite Hfilter.
        unfold bind at 1. unfold gets at 1. fold total.
        destruct total as [total_size total_size_unit]. simpl in Hpos, Htotal.
        rewrite Hpos.
        unfold bind, OS.print, add_summary_message, modify, gets, lift. simpl.
        fold free. destruct free as [free_space free_space_unit]. simpl in Hfree.
        rewrite Htotal, Hfree, Hgt, Hdebug. simpl.
        eexists. split; [reflexivity|]. done. }
      exists w2. split; [done|]. split; [|done].
      unfold guarded_check, try_except. by rewrite Hcheck.
    + intros Hdebug Hmover.
      unfold guarded_check, try_except, _check_free_space_and_move_files.
      unfold bind at 1. rewrite Hfilter.
      unfold bind at 1. unfold gets at 1. fold total.
      destruct total as [total_size total_size_unit]. simpl in Hpos, Htotal.
      rewrite Hpos.
      unfold bind, OS.print, add_summary_message, modify, gets, lift. simpl.
      fold free. destruct free as [free_space free_space_unit]. simpl in Hfree.
      rewrite Htotal, Hfree, Hgt, Hdebug. simpl.
      destruct (FileMover.move_media_files _ _ _ _ _ _) as [r w5] eqn:Hmove.
      apply debug_move_frame in Hmove as (Hf & (cmds & Hout) & Hr); [|done].
      simpl in Hf, Hout.
      assert (NotEnoughSpace destination ∈ stdout w5) as Hprinted.
      { rewrite Hout. set_solver. }
      destruct Hr as [-> | ->]; simpl.
      * by exists w5.
      * unfold on_move_error. rewrite Hdebug. simpl.
        unfold OS.print, modify. eexists. split; [reflexivity|]. simpl.
        split; [done|]. set_solver.
  - intros Hzero%gt_false.
    assert (∃ w2,
              _check_free_space_and_move_files self media_files destination
                (real_source self) (cache_dir self) w = (Return tt, w2)
              ∧ files w2 = files w1 ∧ dirs w2 = dirs w1
              ∧ stdout w2 = stdout w1 ++ [NothingToMove destination])
      as (w2 & Hcheck & Hf & Hd & Hout).
    { unfold _check_free_space_and_move_files. unfold bind at 1. rewrite Hfilter.
      unfold bind at 1. unfold gets at 1. fold total.
      destruct total as [total_size total_size_unit]. simpl in Hzero.
      rewrite Hzero.
      unfold bind, OS.print, modify, gets, ret. simpl.
      destruct (files_moved w1); eexists; (split; [reflexivity|]); done. }
    exists w2. split; [done|]. split; [|done].
    unfold guarded_check, try_except. by rewrite Hcheck.
Qed.

(** [_move_files] is the guarded check for the array, when watched media
    are to be moved, followed by the guarded check for the cache. *)
Lemma move_files_guarded :
  _move_files self
  = ((if watched_move self
      then guarded_check self (media_to_array self) "array" else ret tt) ;;
     guarded_check self (media_to_cache self) "cache").
Proof. reflexivity. Qed.

End capacity_guard.

Lemma capacity_gate_witness :
  ∃ w2,
    PlexCacheApp._check_free_space_and_move_files
      (Examples.app false Examples.tight_utils) ["/mnt/user/movies/b.mkv"] "cache"
      "/mnt/user/" "/mnt/cache/" Examples.array_world
    = (Raise (SystemExit "Not enough space on cache drive."), w2).
Proof.
  destruct (capacity_gate (Examples.app false Examples.tight_utils)
              ["/mnt/user/movies/b.mkv"] "cache" Examples.array_world)
    as (batch & w1 & Hfilter & Hbig & _).
  destruct (Hbig (5 * 1073741824)%Q (3 * 1073741824)%Q eq_refl eq_refl
              ltac:(discriminate) eq_refl) as [Hstop _].
  destruct (Hstop eq_refl) as (w2 & Hcheck & _).
  exists w2. exact Hcheck.
Defined.

(** ** Paths: the decision stage and the move stage *)

Section path_strings.
Import PyStr PosixPath.

Lemma rpartition_absent c s : has_char c s = false → rpartition c s = None.
Proof.
  induction s as [|a s IH]; simpl; [done|].
  intros [Ha Hs]%orb_false_iff. by rewrite IH, Ha.
Qed.

Lemma rpartition_last c a t :
  has_char c t = false → rpartition c (a +:+ String c t) = Some (a, t).
Proof.
  intros Ht. induction a as [|x a IH].
  - simpl. by rewrite rpartition_absent, Ascii.eqb_refl.
  - rewrite append_cons. simpl. by rewrite IH.
Qed.

Lemma component_inv c :
  is_component c = true →
  c ≠ "" ∧ has_char sep c = false ∧ c ≠ "." ∧ c ≠ "..".
Proof.
  unfold is_component. rewrite !andb_true_iff, !negb_true_iff.
  intros [[[H1 H2] H3] H4]. repeat split; [by destruct c | done | |];
    by apply String.eqb_neq.
Qed.

Lemma last_char_None s : last_char s = None → s = "".
Proof. destruct s as [|a s]; [done|]. simpl. by destruct (last_char s). Qed.

Lemma last_char_cons a b s : last_char (String a (String b s)) = last_char (String b s).
Proof. simpl. by destruct (last_char s). Qed.

Lemma last_char_app s1 s2 : s2 ≠ "" → last_char (s1 +:+ s2) = last_char s2.
Proof.
  intros Hne. induction s1 as [|a s1 IH]; [done|].
  rewrite append_cons. destruct (s1 +:+ s2) as [|b s] eqn:E.
  - rewrite <- IH. apply eq_sym. by rewrite (last_char_None _ (eq_sym IH)) in Hne.
  - by rewrite last_char_cons.
Qed.

Lemma last_char_no_sep s :
  s ≠ "" → has_char sep s = false → ∃ x, last_char s = Some x ∧ x ≠ sep.
Proof.
  induction s as [|a s IH]; [done|]. intros _ [Ha Hs]%orb_false_iff.
  destruct s as [|b s].
  - exists a. split; [done|]. by apply Ascii.eqb_neq.
  - rewrite last_char_cons. by apply IH.
Qed.

Lemma rstrip_keep s x : last_char s = Some x → x ≠ sep → rstrip sep s = s.
Proof.
  induction s as [|a s IH]; [done|]. intros Hlast Hx.
  destruct s as [|b s].
  - injection Hlast as ->. simpl. by rewrite (proj2 (Ascii.eqb_neq _ _) Hx).
  - rewrite last_char_cons in Hlast.
    change (rstrip sep (String a (String b s)))
      with (match rstrip sep (String b s) with
            | EmptyString => if Ascii.eqb a sep then EmptyString else String a EmptyString
            | r => String a r
            end).
    by rewrite IH.
Qed.

Lemma rstrip_sep_app s : rstrip sep (s +:+ "/") = rstrip sep s.
Proof.
  induction s as [|a s IH]; [done|]. rewrite append_cons. simpl. by rewrite IH.
Qed.

Lemma all_char_last s x : last_char s = Some x → x ≠ sep → all_char sep s = false.
Proof.
  induction s as [|a s IH]; [done|]. intros Hlast Hx.
  destruct s as [|b s].
  - injection Hlast as ->. simpl. by rewrite (proj2 (Ascii.eqb_neq _ _) Hx).
  - rewrite last_char_cons in Hlast.
    change (all_char sep (String a (String b s)))
      with (Ascii.eqb a sep && all_char sep (String b s)).
    rewrite IH by done. apply andb_false_r.
Qed.

Lemma all_char_app c s t : all_char c (s +:+ t) = all_char c s && all_char c t.
Proof.
  induction s as [|a s IH]; [done|]. rewrite append_cons. simpl.
  by rewrite IH, andb_assoc.
Qed.

Lemma endswith_sep_last s x : last_char s = Some x → x ≠ sep → endswith s "/" = false.
Proof.
  induction s as [|a s IH]; [done|]. intros Hlast Hx.
  destruct s as [|b s].
  - injection Hlast as ->. simpl.
    by rewrite (proj2 (Ascii.eqb_neq x "/"%char) Hx).
  - rewrite last_char_cons in Hlast.
    change (endswith (String a (String b s)) "/")
      with (String.eqb (String a (String b s)) "/" || endswith (String b s) "/").
    rewrite IH by done. simpl. by destruct (Ascii.eqb a "/").
Qed.

Lemma startswith_sep_cons x s : startswith (String x s) "/" = Ascii.eqb sep x.
Proof. simpl. apply andb_true_r. Qed.

Lemma startswith_sep_no_sep s : has_char sep s = false → startswith s "/" = false.
Proof.
  destruct s as [|a s]; [done|]. intros [Ha _]%orb_false_iff.
  rewrite startswith_sep_cons. by rewrite Ascii.eqb_sym.
Qed.

Lemma split_nonempty c s : split c s ≠ [].
Proof.
  destruct s as [|a s]; simpl; [done|].
  destruct (Ascii.eqb a c); [done|]. by destruct (split c s).
Qed.

Lemma split_no_sep c s : has_char c s = false → split c s = [s].
Proof.
  induction s as [|a s IH]; simpl; [done|].
  intros [Ha Hs]%orb_false_iff. by rewrite Ha, IH.
Qed.

Lemma split_app c a b : split c (a +:+ String c b) = split c a ++ split c b.
Proof.
  induction a as [|x a IH].
  - simpl. by rewrite Ascii.eqb_refl.
  - rewrite append_cons. simpl. rewrite IH.
    destruct (Ascii.eqb x c); [done|].
    destruct (split c a) eqn:E; [by apply split_nonempty in E | done].
Qed.

Lemma join_cons_cons x y l :
  join "/" (x :: y :: l) = x +:+ String sep (join "/" (y :: l)).
Proof. reflexivity. Qed.

Lemma join_app l1 l2 :
  l1 ≠ [] → l2 ≠ [] →
  join "/" (l1 ++ l2) = join "/" l1 +:+ String sep (join "/" l2).
Proof.
  intros Hne1 Hne2. induction l1 as [|a l1 IH]; [done|].
  destruct l1 as [|b l1].
  - destruct l2 as [|c l2]; [done|]. reflexivity.
  - change ((a :: b :: l1) ++ l2) with (a :: b :: (l1 ++ l2)).
    rewrite !join_cons_cons.
    change (b :: l1 ++ l2) with ((b :: l1) ++ l2). rewrite IH by done.
    by rewrite append_assoc.
Qed.

Lemma split_join l :
  l ≠ [] → Forall (fun x => has_char sep x = false) l →
  split sep (join "/" l) = l.
Proof.
  induction l as [|x l IH]; [done|]. intros _ Hall.
  apply Forall_cons in Hall as [Hx Hall].
  destruct l as [|y l]; [by apply split_no_sep|].
  rewrite join_cons_cons, split_app, IH, split_no_sep by done. done.
Qed.

Lemma join_slash_prefixed d ds : join "/" (d :: ds) = d +:+ slash_prefixed ds.
Proof.
  revert d. induction ds as [|e ds IH]; intros d.
  - simpl. by rewrite append_nil_r.
  - rewrite join_cons_cons, IH. reflexivity.
Qed.

Lemma join2_plain a b x :
  last_char a = Some x → x ≠ sep → startswith b "/" = false →
  join2 a b = a +:+ "/" +:+ b.
Proof.
  intros Hlast Hx Hb. unfold join2. rewrite Hb.
  rewrite (endswith_sep_last a x) by done. by destruct a.
Qed.

Lemma join2_after_sep a b :
  endswith a "/" = true → startswith b "/" = false → join2 a b = a +:+ b.
Proof. intros Ha Hb. unfold join2. by rewrite Hb, Ha, orb_true_r. Qed.

Lemma join_all_components acc x ds :
  last_char acc = Some x → x ≠ sep → Forall (fun c => is_component c = true) ds →
  join_all acc ds = acc +:+ slash_prefixed ds.
Proof.
  unfold join_all. revert acc x.
  induction ds as [|d ds IH]; intros acc x Hlast Hx Hall; simpl.
  - by rewrite append_nil_r.
  - apply Forall_cons in Hall as [Hd Hall].
    destruct (component_inv d Hd) as (Hne & Hsep & _).
    destruct (last_char_no_sep d Hne Hsep) as (y & Hy & Hysep).
    rewrite (join2_plain acc d x) by (done || by apply startswith_sep_no_sep).
    rewrite (IH _ y); [| |done..].
    + by rewrite !append_assoc.
    + rewrite last_char_app by done. by rewrite last_char_app.
Qed.

Lemma commonprefix_len_app l m : commonprefix_len l (l ++ m) = length l.
Proof. induction l as [|a l IH]; simpl; [by destruct m|]. by rewrite String.eqb_refl, IH. Qed.

Lemma filter_components cs :
  Forall (fun c => is_component c = true) cs →
  filter (fun x => is_empty x = false) cs = cs.
Proof.
  induction 1 as [|c cs Hc _ IH]; [done|].
  destruct (component_inv c Hc) as (Hne & _).
  rewrite filter_cons_True by (by destruct c). by rewrite IH.
Qed.

Lemma normpath_fold n l acc :
  Forall (fun c => c = "" ∨ is_component c = true) l →
  fold_left (normpath_step n) l acc
  = acc ++ filter (fun x => is_empty x = false) l.
Proof.
  intros Hall. revert acc.
  induction Hall as [|c l Hc _ IH]; intros acc; simpl.
  - by rewrite app_nil_r.
  - destruct Hc as [-> | Hc].
    + rewrite filter_cons_False by done. apply IH.
    + destruct (component_inv c Hc) as (Hne & _ & Hdot & Hdots).
      rewrite filter_cons_True by (by destruct c).
      unfold normpath_step at 2.
      rewrite (proj2 (String.eqb_neq c "")), (proj2 (String.eqb_neq c ".")),
        (proj2 (String.eqb_neq c "..")) by done.
      simpl. rewrite IH. by rewrite <- app_assoc.
Qed.

Lemma startswith_sep_join cs tail :
  Forall (fun c => is_component c = true) cs → tail = [] ∨ tail = [""] →
  startswith (join "/" (cs ++ tail)) "/" = false.
Proof.
  intros Hcs Htail. destruct cs as [|c cs].
  - by destruct Htail as [-> | ->].
  - apply Forall_cons in Hcs as [Hc _].
    destruct (component_inv c Hc) as (Hne & Hsep & _).
    change ((c :: cs) ++ tail) with (c :: (cs ++ tail)).
    rewrite join_slash_prefixed.
    destruct c as [|x c]; [done|]. rewrite append_cons, startswith_sep_cons.
    simpl in Hsep. apply orb_false_iff in Hsep as [Hx _].
    by rewrite Ascii.eqb_sym.
Qed.

Lemma join_absolute l : l ≠ [] → join "/" ("" :: l) = String sep (join "/" l).
Proof. by destruct l. Qed.

(** A normalised absolute path, with or without a trailing slash, is
    normalised to itself without the trailing slash. *)
Lemma normpath_absolute cs tail :
  Forall (fun c => is_component c = true) cs → tail = [] ∨ tail = [""] →
  cs ++ tail ≠ [] →
  normpath (join "/" ("" :: cs ++ tail)) = String sep (join "/" cs).
Proof.
  intros Hcs Htail Hne. rewrite join_absolute by done.
  assert (startswith (join "/" (cs ++ tail)) "/" = false) as Hstart
    by by apply startswith_sep_join.
  assert (split sep (join "/" (cs ++ tail)) = cs ++ tail) as Hsplit.
  { apply split_join; [done|]. apply Forall_app. split.
    - eapply Forall_impl; [exact Hcs|]. intros c Hc. by apply component_inv.
    - by destruct Htail as [-> | ->]; repeat constructor. }
  assert (filter (fun x => is_empty x = false) (cs ++ tail) = cs) as Hfilter.
  { rewrite filter_app, filter_components by done.
    destruct Htail as [-> | ->]; [by rewrite app_nil_r|].
    rewrite filter_cons_False by done. by rewrite app_nil_r. }
  remember (join "/" (cs ++ tail)) as r eqn:Hr.
  unfold normpath. cbv zeta.
  change (is_empty (String sep r)) with false. cbv iota.
  change (split sep (String sep r)) with ("" :: split sep r).
  replace (if startswith (String sep r) "/"
           then if startswith (String sep r) "//"
                   && negb (startswith (String sep r) "///")
                then 2 else 1
           else 0) with 1.
  2:{ change (startswith (String sep r) "/") with true.
      change (startswith (String sep r) "//") with (startswith r "/").
      by rewrite Hstart. }
  rewrite Hsplit, normpath_fold.
  - rewrite filter_cons_False by done. simpl app. rewrite Hfilter. reflexivity.
  - constructor; [by left|]. apply Forall_app. split.
    + eapply Forall_impl; [exact Hcs|]. intros c Hc. by right.
    + destruct Htail as [-> | ->]; repeat constructor.
Qed.

Lemma components_absolute cs :
  Forall (fun c => is_component c = true) cs →
  components (String sep (join "/" cs)) = cs.
Proof.
  intros Hcs. unfold components.
  change (split sep (String sep (join "/" cs)))
    with ("" :: split sep (join "/" cs)).
  rewrite filter_cons_False by done.
  destruct cs as [|c cs]; [done|].
  rewrite split_join; [by apply filter_components | done |].
  eapply Forall_impl; [exact Hcs|]. intros d Hd. by apply component_inv.
Qed.

Lemma abspath_absolute here cs tail :
  Forall (fun c => is_component c = true) cs → tail = [] ∨ tail = [""] →
  cs ++ tail ≠ [] →
  abspath here (join "/" ("" :: cs ++ tail)) = String sep (join "/" cs).
Proof.
  intros Hcs Htail Hne. unfold abspath.
  rewrite (join_absolute (cs ++ tail)) at 1 by done.
  change (startswith (String sep _) "/") with true. cbv iota.
  by apply normpath_absolute.
Qed.

(** The path of a directory below [directory_path root_comps], relative to
    it, is the path that was put after it. *)
Lemma relpath_below here root_comps dir_comps :
  Forall (fun c => is_component c = true) root_comps →
  Forall (fun c => is_component c = true) dir_comps →
  dir_comps ≠ [] →
  relpath here (join "/" ("" :: root_comps ++ dir_comps)) (directory_path root_comps)
  = Some (join "/" dir_comps).
Proof.
  intros Hroot Hdir Hne. unfold relpath, directory_path.
  rewrite (join_absolute (root_comps ++ dir_comps)) at 1
    by (by destruct root_comps, dir_comps).
  change (is_empty (String sep _)) with false. cbv iota zeta.
  rewrite (abspath_absolute here root_comps [""]); [|done|by right|by destruct root_comps].
  replace (root_comps ++ dir_comps) with ((root_comps ++ dir_comps) ++ [])
    by apply app_nil_r.
  rewrite (abspath_absolute here (root_comps ++ dir_comps) []);
    [|by apply Forall_app|by left|rewrite app_nil_r; by destruct root_comps, dir_comps].
  rewrite !components_absolute by (done || by apply Forall_app).
  rewrite commonprefix_len_app, Nat.sub_diag, drop_app_length. simpl.
  destruct dir_comps as [|d ds]; [done|].
  apply Forall_cons in Hdir as [Hd Hds].
  destruct (component_inv d Hd) as (Hdne & Hdsep & _).
  destruct (last_char_no_sep d Hdne Hdsep) as (x & Hx & Hxsep).
  by rewrite (join_all_components d x), join_slash_prefixed.
Qed.

Lemma last_char_join l d :
  Forall (fun c => is_component c = true) (l ++ [d]) →
  ∀ prefix, ∃ x, last_char (prefix +:+ join "/" (l ++ [d])) = Some x ∧ x ≠ sep.
Proof.
  intros Hall prefix.
  apply Forall_app in Hall as [_ [Hd _]%Forall_cons].
  destruct (component_inv d Hd) as (Hne & Hsep & _).
  destruct (last_char_no_sep d Hne Hsep) as (x & Hx & Hxsep).
  exists x. split; [|done].
  destruct l as [|c l].
  - simpl app. change (join "/" [d]) with d. by rewrite last_char_app.
  - rewrite join_app by done. change (join "/" [d]) with d.
    rewrite <- append_assoc. rewrite (last_char_app _ (String sep d)) by done.
    destruct d as [|y d]; [done|]. by rewrite last_char_cons.
Qed.

End path_strings.

Section stages_agree.
Import PyStr PosixPath.
Variable filter_ : FileFilter.t.
Variable mover : FileMover.t.
Variables root_comps dir_comps : list string.
Variable name : string.

Hypothesis filter_source : FileFilter.real_source filter_ = directory_path root_comps.
Hypothesis mover_source : FileMover.real_source mover = directory_path root_comps.
Hypothesis same_cache : FileMover.cache_dir mover = FileFilter.cache_dir filter_.
Hypothesis cache_slash : endswith (FileFilter.cache_dir filter_) "/" = true.
Hypothesis root_ok : Forall (fun c => is_component c = true) root_comps.
Hypothesis dir_ok : Forall (fun c => is_component c = true) dir_comps.
Hypothesis below : dir_comps ≠ [].
Hypothesis name_ok : has_char sep name = false.


Lemma directory_eq :
  directory_below root_comps dir_comps
  = directory_path root_comps +:+ join "/" dir_comps.
Proof using below.
  unfold directory_below, directory_path.
  change ("" :: root_comps ++ dir_comps) with (("" :: root_comps) ++ dir_comps).
  change ("" :: root_comps ++ [""]) with (("" :: root_comps) ++ [""]).
  rewrite !join_app by done. by rewrite append_assoc.
Qed.

Lemma file_eq :
  file_below root_comps dir_comps name
  = directory_below root_comps dir_comps +:+ String sep name.
Proof using below.
  unfold file_below. rewrite directory_eq, join_app by done.
  by rewrite append_assoc.
Qed.

Lemma directory_last prefix :
  ∃ x, last_char (prefix +:+ join "/" dir_comps) = Some x ∧ x ≠ sep.
Proof using below dir_ok.
  destruct (exists_last below) as (l & d & Heq).
  rewrite Heq in *. by apply last_char_join.
Qed.

Lemma dirname_file :
  dirname (file_below root_comps dir_comps name)
  = directory_below root_comps dir_comps.
Proof using below dir_ok name_ok.
  destruct (directory_last (directory_path root_comps)) as (x & Hx & Hxsep).
  rewrite <- directory_eq in Hx.
  unfold dirname, split_head_tail. rewrite file_eq, rpartition_last by done.
  simpl fst. rewrite all_char_app, (all_char_last _ x Hx) by done.
  rewrite rstrip_sep_app, (rstrip_keep _ x Hx) by done.
  by destruct (directory_below root_comps dir_comps).
Qed.

Lemma basename_file : basename (file_below root_comps dir_comps name) = name.
Proof using below name_ok.
  unfold basename, split_head_tail. by rewrite file_eq, rpartition_last.
Qed.

Lemma join_cache_name :
  join2 (FileFilter.cache_dir filter_ +:+ join "/" dir_comps) name
  = FileFilter.cache_dir filter_ +:+ join "/" (dir_comps ++ [name]).
Proof using below dir_ok name_ok.
  destruct (directory_last (FileFilter.cache_dir filter_)) as (x & Hx & Hxsep).
  rewrite (join2_plain _ name x) by (done || by apply startswith_sep_no_sep).
  rewrite join_app by done. by rewrite !append_assoc.
Qed.

(** Where the two stages agree.  Let the real source be a normalised
    absolute directory path with a trailing slash, let the cache directory
    end with a slash, and let the file lie in a proper subdirectory of the
    real source, its path written without empty, "." or ".." components.
    Then the decision stage and the move stage compute the same cache path
    for it: the cache directory followed by the path of the file below the
    real source. *)
Theorem cache_paths_agree_in_subdirectories here :
  let cache_file_name :=
    FileFilter.cache_dir filter_ +:+ join "/" (dir_comps ++ [name]) in
  snd (FileFilter._get_cache_paths filter_ (file_below root_comps dir_comps name))
  = cache_file_name
  ∧ ∃ user_path cache_path user_file_name,
      FileMover._get_paths mover here (file_below root_comps dir_comps name)
      = Return (user_path, cache_path, cache_file_name, user_file_name).
Proof using All.
  intros cache_file_name. split.
  - unfold FileFilter._get_cache_paths. simpl snd.
    rewrite dirname_file, basename_file, filter_source, directory_eq.
    rewrite replace_1_prefix. apply join_cache_name.
  - unfold FileMover._get_paths.
    rewrite dirname_file, basename_file, mover_source.
    unfold directory_below. rewrite relpath_below by done.
    rewrite same_cache.
    rewrite (join2_after_sep (FileFilter.cache_dir filter_)).
    + rewrite join_cache_name. by eexists _, _, _.
    + done.
    + replace dir_comps with (dir_comps ++ []) by apply app_nil_r.
      apply startswith_sep_join; [done | by left].
Qed.

End stages_agree.

Lemma cache_paths_agree_in_subdirectories_witness :
  snd (FileFilter._get_cache_paths Examples.file_filter "/mnt/user/movies/test.mkv")
  = "/mnt/cache/movies/test.mkv"
  ∧ ∃ user_path cache_path user_file_name,
      FileMover._get_paths (Examples.file_mover false) "/" "/mnt/user/movies/test.mkv"
      = Return (user_path, cache_path, "/mnt/cache/movies/test.mkv", user_file_name).
Proof.
  apply (cache_paths_agree_in_subdirectories Examples.file_filter
           (Examples.file_mover false) ["mnt"; "user"] ["movies"] "test.mkv").
  - reflexivity.
  - reflexivity.
  - reflexivity.
  - reflexivity.
  - repeat constructor.
  - repeat constructor.
  - discriminate.
  - reflexivity.
Defined.

(** ** CompanionResolver: [SubtitleFinder._find_subtitle_files] *)

(** C8 at a failing input: a media file that carries a subtitle extension
    is returned as its own companion, because the test [entry.name != file]
    compares the name of the entry with the whole path of the file. *)
Lemma subtitle_is_its_own_companion :
  fst (SubtitleFinder._find_subtitle_files (SubtitleFinder.__init__ None)
         "/mnt/user/movies" "/mnt/user/movies/show.srt" Examples.subtitle_world)
  = Return ["/mnt/user/movies/show.srt"; "/mnt/user/movies/show.en.vtt"].
Proof. vm_compute. reflexivity. Qed.

Lemma subtitles_of_a_film :
  fst (SubtitleFinder._find_subtitle_files (SubtitleFinder.__init__ None)
         "/mnt/user/movies" "/mnt/user/movies/show.mkv" Examples.subtitle_world)
  = Return ["/mnt/user/movies/show.srt"; "/mnt/user/movies/show.en.vtt"].
Proof. vm_compute. reflexivity. Qed.

Section companion_resolver.
Import PyStr PosixPath.

Lemma rpartition_None_inv c s : rpartition c s = None → has_char c s = false.
Proof.
  induction s as [|a s IH]; simpl; [done|].
  destruct (rpartition c s) as [[b t]|]; [done|].
  destruct (Ascii.eqb a c); [done|]. intros _. by apply IH.
Qed.

Lemma rpartition_tail c s b t : rpartition c s = Some (b, t) → has_char c t = false.
Proof.
  revert b t. induction s as [|a s IH]; intros b t; simpl; [done|].
  destruct (rpartition c s) as [[b' t']|] eqn:E.
  - intros [= <- <-]. by eapply IH.
  - destruct (Ascii.eqb a c); [|done]. intros [= <- <-].
    by apply rpartition_None_inv.
Qed.

Lemma basename_no_sep p : has_char sep (basename p) = false.
Proof.
  unfold basename, split_head_tail.
  destruct (rpartition sep p) as [[b t]|] eqn:E; simpl.
  - by eapply rpartition_tail.
  - by apply rpartition_None_inv.
Qed.

Lemma entry_name_no_sep w directory_path entry :
  entry ∈ OS.entries w directory_path → has_char sep (OS.name entry) = false.
Proof.
  unfold OS.entries. rewrite elem_of_app, !list_elem_of_omap.
  intros [(p & _ & Hentry) | (p & _ & Hentry)];
    unfold OS.entry_of in Hentry;
    destruct (_ && _); try done;
    injection Hentry as <-; apply basename_no_sep.
Qed.

(** For a media file given with a directory part, the test
    [entry.name != file] holds for every entry of any directory: it
    excludes nothing, and so not the media file itself. *)
Lemma name_test_excludes_nothing w directory_path entry file :
  entry ∈ OS.entries w directory_path →
  has_char sep file = true →
  negb (String.eqb (OS.name entry) file) = true.
Proof.
  intros Hentry Hfile. apply negb_true_iff, String.eqb_neq. intros Heq.
  apply entry_name_no_sep in Hentry. congruence.
Qed.

End companion_resolver.

(** * Further properties *)

(** ** [SubtitleFinder] *)

Section subtitle_finder.
Import PyStr PosixPath SubtitleFinder.
Variable self : SubtitleFinder.t.

Lemma find_subtitle_files_run directory_path file w :
  _find_subtitle_files self directory_path file w =
    (Return (if bool_decide (directory_path ∈ denied w) then []
             else if bool_decide (directory_path ∈ dirs w)
             then found_subtitles self w directory_path file
             else []), w).
Proof.
  unfold _find_subtitle_files, try_except, bind, OS.scandir.
  repeat case_bool_decide; reflexivity.
Qed.

(** X1.  [_find_subtitle_files] never raises and leaves the world as it
    is.  A directory that may not be listed, or that is no directory,
    yields no subtitle.  Every path returned belongs to a regular file of
    the directory whose name starts with the stem of the media file and
    ends with one of the subtitle extensions. *)
Theorem find_subtitle_files_safe directory_path file w :
  ∃ subs,
    _find_subtitle_files self directory_path file w = (Return subs, w)
    ∧ (directory_path ∈ denied w ∨ directory_path ∉ dirs w → subs = [])
    ∧ ∀ p, p ∈ subs →
        ∃ entry,
          entry ∈ OS.entries w directory_path
          ∧ p = OS.path entry
          ∧ OS.is_file entry = true
          ∧ startswith (OS.name entry) (fst (splitext (basename file))) = true
          ∧ endswith_any (OS.name entry) (subtitle_extensions self) = true.
Proof.
  rewrite find_subtitle_files_run. eexists. split; [reflexivity|]. split.
  - intros [Hden | Hdir].
    + by rewrite bool_decide_eq_true_2.
    + case_bool_decide; [done|]. by rewrite bool_decide_eq_false_2.
  - intros p Hp.
    case_bool_decide; [by apply elem_of_nil in Hp|].
    case_bool_decide; [|by apply elem_of_nil in Hp].
    unfold found_subtitles in Hp.
    apply list_elem_of_fmap in Hp as (entry & -> & Hentry).
    apply list_elem_of_In, filter_In in Hentry as [Hentry Hcond].
    apply list_elem_of_In in Hentry.
    unfold is_subtitle_of in Hcond.
    apply andb_true_iff in Hcond as [[[Hfile Hstart]%andb_true_iff _]%andb_true_iff Hend].
    by exists entry.
Qed.

Lemma in_skip_default (files_to_skip : option (gset string)) file :
  bool_decide (file ∈ default (∅ : gset string) files_to_skip)
  = FileFilter.in_skip files_to_skip file.
Proof.
  destruct files_to_skip as [skip|]; simpl; [done|].
  by rewrite bool_decide_eq_false_2.
Qed.

Lemma subtitles_loop_run files_to_skip media :
  let body := fun file st =>
    if bool_decide (file ∈ default (∅ : gset string) files_to_skip)
       || bool_decide (file ∈ processed_files st)
    then ret st
    else
      let processed := {[file]} ∪ processed_files st in
      let directory_path := dirname file in
      present <- OS.exists_ directory_path ;;
      if (present : bool) then
        subtitle_files <- _find_subtitle_files self directory_path file ;;
        ret {| processed_files := processed;
               all_media_files := all_media_files st ++ subtitle_files |}
      else
        ret {| processed_files := processed;
               all_media_files := all_media_files st |} in
  ∀ st w,
    ∃ st',
      for_each media body st w = (Return st', w)
      ∧ all_media_files st'
        = all_media_files st
          ++ concat (subtitles_of self w
                       <$> considered files_to_skip (processed_files st) media).
Proof.
  intros body. induction media as [|file media IH]; intros st w; simpl.
  - exists st. by rewrite app_nil_r.
  - assert (body file st w
            = if bool_decide (file ∈ processed_files st)
                 || FileFilter.in_skip files_to_skip file
              then (Return st, w)
              else (Return {| processed_files := {[file]} ∪ processed_files st;
                              all_media_files :=
                                all_media_files st ++ subtitles_of self w file |},
                    w)) as Hbody.
    { unfold body. rewrite in_skip_default.
      rewrite (orb_comm (bool_decide (file ∈ processed_files st))).
      destruct (_ || _); [done|].
      unfold subtitles_of, bind, OS.exists_, gets.
      destruct (bool_decide (dirname file ∈ dirs w)) eqn:Hdir;
        destruct (bool_decide (dirname file ∈ denied w)) eqn:Hden;
        destruct (bool_decide (is_Some (files w !! dirname file)));
        simpl; unfold ret; rewrite ?find_subtitle_files_run, ?Hdir, ?Hden;
        by rewrite ?app_nil_r. }
    unfold bind at 1. rewrite Hbody.
    destruct (_ || _); [apply IH|].
    destruct (IH {| processed_files := {[file]} ∪ processed_files st;
                    all_media_files :=
                      all_media_files st ++ subtitles_of self w file |} w)
      as (st' & Hrun & Hall).
    exists st'. split; [exact Hrun|]. rewrite Hall. simpl. by rewrite <- app_assoc.
Qed.

(** X2.  [get_media_subtitles] never raises and leaves the world as it
    is.  It returns the media files as given, followed by the subtitles of
    every media file that is not skipped, each file looked at once, in the
    order of first occurrence. *)
Theorem get_media_subtitles_appends media files_to_skip w :
  get_media_subtitles self media files_to_skip w
  = (Return (media
             ++ concat (subtitles_of self w <$> considered files_to_skip ∅ media)),
     w).
Proof.
  pose proof (subtitles_loop_run files_to_skip media
                {| processed_files := ∅; all_media_files := media |} w)
    as (st' & Hrun & Hall).
  unfold get_media_subtitles. cbv zeta in Hrun |- *. unfold bind at 1.
  rewrite Hrun. unfold ret. by rewrite Hall.
Qed.

End subtitle_finder.

(** ** [FilePathModifier] *)

Section python_strings.
Import PyStr.

Lemma startswith_split s p :
  startswith s p = true → s = p +:+ str_drop (String.length p) s.
Proof.
  revert s. induction p as [|a p IH]; intros s; [by destruct s|].
  destruct s as [|b s]; [done|]. simpl.
  intros [Hab Hs]%andb_true_iff. apply Ascii.eqb_eq in Hab as ->.
  rewrite append_cons. f_equal. by apply IH.
Qed.

Lemma interleave_empty s : interleave s "" = s.
Proof. induction s as [|a s IH]; simpl; [done|]. by rewrite append_nil_l, IH. Qed.

Lemma replace_from_same k s a old :
  replace_from k s (String a old) (String a old) = str_drop k s.
Proof.
  revert k. induction s as [|c s IH]; intros k; simpl.
  - by destruct k.
  - destruct k as [|k]; [|apply IH].
    destruct (Ascii.eqb a c && startswith s old) eqn:Hstart.
    + rewrite IH, Nat.sub_0_r.
      apply andb_true_iff in Hstart as [Hac Hs].
      apply Ascii.eqb_eq in Hac as ->.
      rewrite append_cons. simpl. f_equal. symmetry. by apply startswith_split.
    + by rewrite IH.
Qed.

(** [s.replace(old, old) == s] *)
Lemma replace_same s old : replace s old old = s.
Proof.
  destruct old as [|a old]; simpl.
  - by rewrite append_nil_l, interleave_empty.
  - by rewrite (replace_from_same 0).
Qed.

End python_strings.

Section path_translator_more.
Import PyStr FilePathModifier.
Variable self : FilePathModifier.t.

Lemma enumerate_loop_map todo done :
  enumerate_loop self (length todo) (length done) (done ++ todo)
  = (out <~ map_result (modify_file_path self) todo ;; Return (done ++ out)).
Proof.
  revert done. induction todo as [|x todo IH]; intros done; simpl.
  - by rewrite app_nil_r.
  - rewrite list_lookup_middle by done.
    destruct (modify_file_path self x) as [y|e]; simpl; [|done].
    replace (<[length done := y]> (done ++ x :: todo))
      with ((done ++ [y]) ++ todo).
    2:{ rewrite insert_app_r_alt by lia. rewrite Nat.sub_diag. simpl.
        by rewrite <- app_assoc. }
    replace (S (length done)) with (length (done ++ [y]))
      by (rewrite length_app; simpl; lia).
    rewrite IH.
    destruct (map_result (modify_file_path self) todo); simpl; [|done].
    by rewrite <- app_assoc.
Qed.

Lemma modify_file_paths_map files :
  modify_file_paths self (Some files)
  = map_result (modify_file_path self)
      (filter (fun file_path => startswith file_path (plex_source self) = true) files).
Proof.
  unfold modify_file_paths.
  pose proof (enumerate_loop_map
                (filter (fun file_path =>
                           startswith file_path (plex_source self) = true) files) [])
    as Hloop.
  simpl in Hloop. rewrite Hloop.
  by destruct (map_result _ _).
Qed.

Lemma map_result_raise {A B} (f : A → result B) xs e :
  map_result f xs = Raise e → ∃ x, x ∈ xs ∧ f x = Raise e.
Proof.
  induction xs as [|x xs IH]; simpl; [done|].
  destruct (f x) as [y|e'] eqn:Hx; simpl.
  - destruct (map_result f xs); simpl; [done|].
    intros [= <-]. destruct IH as (x' & Hin & Hx'); [done|].
    exists x'. split; [by right | done].
  - intros [= <-]. exists x. split; [by left | done].
Qed.

Lemma map_result_fails {A B} (f : A → result B) xs x e :
  x ∈ xs → f x = Raise e → ∃ e', map_result f xs = Raise e'.
Proof.
  induction xs as [|x' xs IH]; intros Hin Hx; [by apply elem_of_nil in Hin|].
  simpl. destruct (f x') as [y|e'] eqn:Hx'; simpl; [|by eexists].
  apply elem_of_cons in Hin as [-> | Hin]; [congruence|].
  destruct (IH Hin Hx) as (e'' & ->). by eexists.
Qed.

Lemma library_folder_loop_raise_inv j folders file_path e :
  library_folder_loop self j folders file_path = Raise e →
  e = IndexError "list index out of range"
  ∧ ∃ pre folder post,
      folders = pre ++ folder :: post
      ∧ Forall (fun f => contains file_path f = false) pre
      ∧ contains file_path folder = true
      ∧ length (nas_library_folders self) ≤ j + length pre.
Proof.
  revert j. induction folders as [|folder rest IH]; intros j; simpl; [done|].
  destruct (contains file_path folder) eqn:Hin.
  - destruct (nas_library_folders self !! j) eqn:Hnas; [done|].
    intros [= <-]. split; [done|].
    exists [], folder, rest. repeat split; [constructor | done |].
    apply lookup_ge_None in Hnas. simpl. lia.
  - intros (He & pre & f & post & -> & Hpre & Hf & Hlen)%IH.
    split; [done|]. exists (folder :: pre), f, post.
    repeat split; [by constructor | done | simpl; lia].
Qed.

Lemma library_folder_loop_raises j pre folder post file_path :
  Forall (fun f => contains file_path f = false) pre →
  contains file_path folder = true →
  length (nas_library_folders self) ≤ j + length pre →
  library_folder_loop self j (pre ++ folder :: post) file_path
  = Raise (IndexError "list index out of range").
Proof.
  revert j. induction pre as [|f pre IH]; intros j Hpre Hin Hlen; simpl in *.
  - rewrite Hin. rewrite (proj2 (lookup_ge_None _ _)) by lia. done.
  - apply Forall_cons in Hpre as [-> Hpre]. apply IH; [done..|lia].
Qed.

(** X3.  [modify_file_paths] raises exactly when some retained path cannot
    be translated, that is, when the first library folder found in it has
    no NAS folder at its index; the error is [IndexError] and no path is
    returned. *)
Theorem modify_file_paths_index_error files :
  ((∃ e, modify_file_paths self (Some files) = Raise e)
   ↔ ∃ file_path, file_path ∈ files ∧ lacks_nas_folder self file_path)
  ∧ ∀ e, modify_file_paths self (Some files) = Raise e →
         e = IndexError "list index out of range".
Proof.
  rewrite modify_file_paths_map. split; [split|].
  - intros [e (p & Hp & Hraise)%map_result_raise].
    apply list_elem_of_filter in Hp as [Hstart Hp].
    apply library_folder_loop_raise_inv in Hraise
      as (_ & pre & folder & post & Hfolders & Hpre & Hin & Hlen).
    exists p. split; [done|]. split; [done|].
    exists pre, folder, post. repeat split; done || (simpl in Hlen; lia).
  - intros (p & Hp & Hstart & pre & folder & post & Hfolders & Hpre & Hin & Hlen).
    eapply (map_result_fails _ _ p).
    + apply list_elem_of_filter. by split.
    + unfold modify_file_path. rewrite Hfolders.
      apply library_folder_loop_raises; [done..|simpl; lia].
  - intros e (p & _ & Hraise)%map_result_raise.
    by apply library_folder_loop_raise_inv in Hraise as [-> _].
Qed.

Lemma library_folder_loop_same pre folders file_path :
  nas_library_folders self = pre ++ folders →
  library_folder_loop self (length pre) folders file_path = Return file_path.
Proof.
  revert pre. induction folders as [|folder rest IH]; intros pre Hnas; simpl; [done|].
  destruct (contains file_path folder).
  - rewrite Hnas, list_lookup_middle by done. by rewrite replace_same.
  - replace (S (length pre)) with (length (pre ++ [folder]))
      by (rewrite length_app; simpl; lia).
    apply IH. by rewrite <- app_assoc.
Qed.

(** X4.  When every library folder is mapped to itself (the NAS folders
    are the Plex folders), translation only exchanges the source prefix:
    every retained path has its leading [plex_source] replaced by
    [real_source] and is otherwise unchanged. *)
Theorem modify_file_paths_same_folders files :
  nas_library_folders self = plex_library_folders self →
  modify_file_paths self (Some files)
  = Return ((fun file_path =>
               real_source self +:+ str_drop (String.length (plex_source self)) file_path)
              <$> filter (fun file_path =>
                            startswith file_path (plex_source self) = true) files).
Proof.
  intros Hsame. rewrite modify_file_paths_map.
  induction files as [|p files IH]; [done|].
  destruct (startswith p (plex_source self)) eqn:Hstart.
  - rewrite filter_cons_True by done. simpl. rewrite IH.
    unfold modify_file_path.
    rewrite (startswith_split _ _ Hstart) at 1. rewrite replace_1_prefix.
    by rewrite (library_folder_loop_same []).
  - rewrite filter_cons_False by congruence. apply IH.
Qed.

End path_translator_more.

Lemma modify_file_paths_same_folders_witness :
  FilePathModifier.modify_file_paths
    {| FilePathModifier.plex_source := "/media/";
       FilePathModifier.real_source := "/mnt/user/";
       FilePathModifier.plex_library_folders := ["movies"; "tv"];
       FilePathModifier.nas_library_folders := ["movies"; "tv"] |}
    (Some ["/media/movies/test.mkv"; "/media/tv/show/s01e01.mkv";
           "/other/path/file.mkv"])
  = Return ["/mnt/user/movies/test.mkv"; "/mnt/user/tv/show/s01e01.mkv"].
Proof.
  exact (modify_file_paths_same_folders
           {| FilePathModifier.plex_source := "/media/";
              FilePathModifier.real_source := "/mnt/user/";
              FilePathModifier.plex_library_folders := ["movies"; "tv"];
              FilePathModifier.nas_library_folders := ["movies"; "tv"] |}
           ["/media/movies/test.mkv"; "/media/tv/show/s01e01.mkv";
            "/other/path/file.mkv"] eq_refl).
Defined.

(** ** [FileFilter] *)

Section placement_decider_more.
Import PyStr PosixPath FileFilter.
Variable self : FileFilter.t.

Lemma admitted_weaken destination media_to_cache w w' file :
  files w' ⊆ files w →
  admitted self destination media_to_cache w file →
  admitted self destination media_to_cache w' file.
Proof.
  intros Hsub [(? & ? & Ha) | (? & Hc)]; [left | right]; repeat split; try done;
    by eapply lookup_weaken_None.
Qed.

Lemma decide_placement_admits destination media_to_cache file w :
  fst (decide_placement self destination media_to_cache file w) = true →
  snd (decide_placement self destination media_to_cache file w) = w
  ∧ admitted self destination media_to_cache w file.
Proof.
  unfold decide_placement, admitted, cache_file_name_of.
  destruct (String.eqb destination "array") eqn:Ha.
  { apply String.eqb_eq in Ha as ->.
    case_bool_decide as Hin; [done|].
    case_bool_decide as Harr; [done|]. intros _. split; [done|]. left.
    repeat split; try done. by apply eq_None_not_Some. }
  destruct (String.eqb destination "cache") eqn:Hc; [|done].
  apply String.eqb_eq in Hc as ->.
  case_bool_decide as Hcache; simpl.
  - by case_bool_decide.
  - intros _. split; [done|]. right. split; [done|]. by apply eq_None_not_Some.
Qed.

(** What joins the batch in the loop of [filter_files]. *)
Lemma filter_loop_batch destination media_to_cache files_to_skip inputs :
  ∀ st w st' w',
    for_each inputs (filter_body self destination media_to_cache files_to_skip) st w
      = (Return st', w') →
    ∃ l,
      media_to st' = media_to st ++ l
      ∧ l `sublist_of` considered files_to_skip (processed_files st) inputs
      ∧ Forall (admitted self destination media_to_cache w') l.
Proof.
  induction inputs as [|x inputs IH]; intros st w st' w' Hrun; simpl in Hrun.
  - injection Hrun as <- <-. exists []. by rewrite app_nil_r.
  - unfold bind at 1 in Hrun. rewrite filter_body_run in Hrun. simpl.
    destruct (_ || _); [by eapply IH|]. simpl in Hrun.
    set (d := decide_placement self destination media_to_cache x w) in *.
    destruct (filter_loop_spec self destination media_to_cache files_to_skip
                inputs (next_state self x (fst d) st) (snd d))
      as (st2 & w2 & Hrun2 & _ & _ & Hsub & _).
    rewrite Hrun in Hrun2. injection Hrun2 as <- <-.
    apply IH in Hrun as (l & Hl & Hsubl & Hall). simpl in Hl, Hsubl.
    destruct (fst d) eqn:Hadd.
    + exists (x :: l). split; [by rewrite Hl, <- app_assoc|].
      split; [by apply sublist_skip|]. constructor; [|done].
      destruct (decide_placement_admits destination media_to_cache x w Hadd)
        as [Hw Hadm]. fold d in Hw. rewrite Hw in Hsub.
      by eapply admitted_weaken.
    + exists l. split; [done|]. split; [by apply sublist_cons | done].
Qed.





Lemma decide_placement_idle destination media_to_cache file w :
  (decided destination media_to_cache file → ¬ on_both_tiers self w file) →
  snd (decide_placement self destination media_to_cache file w) = w.
Proof.
  unfold decide_placement, decided, on_both_tiers. intros Hsep.
  destruct (String.eqb destination "array") eqn:Ha.
  { apply String.eqb_eq in Ha as ->.
    case_bool_decide as Hin; [done|].
    case_bool_decide as Harr; [|done]. simpl.
    apply set_files_delete_absent, eq_None_not_Some. intros Hc.
    apply Hsep; [by right | done]. }
  destruct (String.eqb destination "cache") eqn:Hc; [|done].
  apply String.eqb_eq in Hc as ->.
  case_bool_decide as Hcache; simpl; [|done].
  case_bool_decide as Harr; simpl; [|done].
  exfalso. apply Hsep; [by left | done].
Qed.

Lemma filter_loop_stable destination media_to_cache files_to_skip inputs :
  ∀ st w st' w',
    (∀ file, file ∈ inputs → in_skip files_to_skip file = false →
       decided destination media_to_cache file → ¬ on_both_tiers self w file) →
    for_each inputs (filter_body self destination media_to_cache files_to_skip) st w
      = (Return st', w') →
    w' = w.
Proof.
  induction inputs as [|x inputs IH]; intros st w st' w' Hsep Hrun; simpl in Hrun.
  - by injection Hrun as <- <-.
  - unfold bind at 1 in Hrun. rewrite filter_body_run in Hrun.
    assert (∀ file, file ∈ inputs → in_skip files_to_skip file = false →
              decided destination media_to_cache file →
              ¬ on_both_tiers self w file) as Hrest.
    { intros file Hin. apply Hsep. by right. }
    destruct (_ || _) eqn:Hskip; [by eapply IH|].
    apply orb_false_iff in Hskip as [_ Hskip]. simpl in Hrun.
    rewrite decide_placement_idle in Hrun.
    + by eapply IH.
    + apply Hsep; [by left | done].
Qed.

Lemma filter_loop_separates_all destination media_to_cache files_to_skip inputs
    w st' w' :
  for_each inputs (filter_body self destination media_to_cache files_to_skip)
    filter_start w = (Return st', w') →
  ∀ file, file ∈ inputs → in_skip files_to_skip file = false →
    decided destination media_to_cache file → ¬ on_both_tiers self w' file.
Proof.
  intros Hrun file Hin Hskip Hdec.
  destruct (filter_loop_spec self destination media_to_cache files_to_skip inputs
              filter_start w) as (st2 & w2 & Hrun2 & Hproc & _).
  rewrite Hrun in Hrun2. injection Hrun2 as <- <-.
  eapply filter_loop_separates; [exact Hrun | exact Hdec | set_solver |].
  rewrite Hproc. apply elem_of_union_l, elem_of_list_to_set.
  apply considered_elem. set_solver.
Qed.

(** X7.  A pass converges at once: when [filter_files] is run again with
    the same arguments on the world it left, it changes nothing.  (On
    Unraid the exclusion file must not itself be the cache or array copy
    of an input file.) *)
Theorem filter_files_second_pass inputs destination media_to_cache files_to_skip w
    batch w' :
  filter_files self inputs destination media_to_cache files_to_skip w
    = (Return batch, w') →
  (is_unraid self = true →
   ∀ file, file ∈ inputs →
     mover_cache_exclude_file self ≠ cache_file_name_of self file
     ∧ mover_cache_exclude_file self ≠ array_file_of self file) →
  ∃ batch',
    filter_files self inputs destination media_to_cache files_to_skip w'
      = (Return batch', w').
Proof.
  intros Hrun Hexcl. destruct inputs as [|x inputs].
  { injection Hrun as <- <-. by exists []. }
  destruct (filter_files_run self (x :: inputs) destination media_to_cache
              files_to_skip w) as (st1 & w1 & Hloop1 & Hfiles1); [done|].
  rewrite Hfiles1 in Hrun. injection Hrun as <- <-.
  fold filter_start in Hloop1.
  pose proof (filter_loop_separates_all _ _ _ _ _ _ _ Hloop1) as Hsep1.
  destruct (filter_loop_spec self destination (default [] media_to_cache)
              files_to_skip (x :: inputs) filter_start w)
    as (st1' & w1' & Hrun1' & _ & Hexcl1 & _).
  rewrite Hloop1 in Hrun1'. injection Hrun1' as <- <-.
  set (w' := if is_unraid self
             then set_files (<[mover_cache_exclude_file self :=
                                 exclude_text (cache_files_to_exclude st1)]>) w1
             else w1).
  destruct (filter_files_run self (x :: inputs) destination media_to_cache
              files_to_skip w') as (st2 & w2 & Hloop2 & Hfiles2); [done|].
  fold filter_start in Hloop2.
  destruct (filter_loop_spec self destination (default [] media_to_cache)
              files_to_skip (x :: inputs) filter_start w')
    as (st2' & w2' & Hrun2' & _ & Hexcl2 & _).
  rewrite Hloop2 in Hrun2'. injection Hrun2' as <- <-.
  assert (w2 = w') as ->.
  { eapply filter_loop_stable; [|exact Hloop2].
    intros file Hin Hskip Hdec Hboth. apply (Hsep1 file Hin Hskip Hdec).
    unfold w' in Hboth. destruct (is_unraid self); [|done].
    destruct (Hexcl eq_refl file Hin) as [Hnc Hna].
    destruct Hboth as [Hc Ha]. split.
    - revert Hc. simpl. by rewrite lookup_insert_ne.
    - revert Ha. simpl. by rewrite lookup_insert_ne. }
  exists (media_to st2). rewrite Hfiles2. f_equal.
  rewrite Hexcl2, <- Hexcl1. unfold w'.
  destruct (is_unraid self); [|done].
  apply world_eq; simpl; try done. by rewrite insert_insert_eq.
Qed.

End placement_decider_more.



Lemma filter_files_second_pass_witness :
  ∃ batch w' batch',
    FileFilter.filter_files Examples.file_filter ["/mnt/user/movies/a.mkv"]
      "cache" None None Examples.duplicated_world = (Return batch, w')
    ∧ FileFilter.filter_files Examples.file_filter ["/mnt/user/movies/a.mkv"]
        "cache" None None w' = (Return batch', w').
Proof.
  assert (FileFilter.filter_files Examples.file_filter ["/mnt/user/movies/a.mkv"]
            "cache" None None Examples.duplicated_world
          = (Return [],
             snd (FileFilter.filter_files Examples.file_filter
                    ["/mnt/user/movies/a.mkv"] "cache" None None
                    Examples.duplicated_world))) as Hrun
    by (vm_compute; reflexivity).
  destruct (filter_files_second_pass Examples.file_filter _ _ _ _ _ _ _ Hrun)
    as (batch' & Hagain).
  - intros _ file Hin. apply list_elem_of_singleton in Hin as ->.
    split; vm_compute; discriminate.
  - eexists _, _, batch'. split; [exact Hrun | exact Hagain].
Defined.

(** ** [FileFilter]: a file directly in the real source *)

Section root_file.
Import PyStr PosixPath FileFilter.
Variable self : FileFilter.t.
Variable root_comps : list string.
Variable name : string.

Hypothesis source : real_source self = directory_path root_comps.
Hypothesis root_ok : Forall (fun c => is_component c = true) root_comps.
Hypothesis below_root : root_comps ≠ [].
Hypothesis name_ok : has_char sep name = false.

Lemma startswith_length s p : startswith s p = true → String.length p ≤ String.length s.
Proof.
  revert s. induction p as [|a p IH]; intros s H; simpl in *; [lia|].
  destruct s as [|b s]; [done|]. apply andb_true_iff in H as [_ H].
  apply IH in H. simpl. lia.
Qed.

Lemma contains_length s sub : contains s sub = true → String.length sub ≤ String.length s.
Proof.
  induction s as [|a s IH]; simpl; intros H.
  - rewrite orb_false_r in H. by apply startswith_length in H.
  - apply orb_true_iff in H as [H|H].
    + by apply startswith_length in H.
    + apply IH in H. lia.
Qed.

Lemma replace_1_absent s old new : contains s old = false → replace_1 s old new = s.
Proof.
  induction s as [|a s IH]; simpl; intros H.
  - rewrite orb_false_r in H. by rewrite H.
  - apply orb_false_iff in H as [H1 H2]. rewrite H1. f_equal. by apply IH.
Qed.

Lemma string_length_app s t :
  String.length (s +:+ t) = String.length s + String.length t.
Proof. induction s as [|a s IH]; [done|]. rewrite append_cons. simpl. by rewrite IH. Qed.

Lemma source_eq :
  directory_path root_comps = join "/" ("" :: root_comps) +:+ "/".
Proof using below_root.
  unfold directory_path.
  change ("" :: root_comps ++ [""]) with (("" :: root_comps) ++ [""]).
  by rewrite join_app.
Qed.

Lemma source_last :
  ∃ x, last_char (join "/" ("" :: root_comps)) = Some x ∧ x ≠ sep.
Proof using below_root root_ok.
  destruct (exists_last below_root) as (l & d & Heq).
  rewrite join_absolute by done. generalize root_ok. rewrite Heq.
  intros Hok. apply (last_char_join l d Hok "/").
Qed.

Lemma root_file_cache_copy :
  cache_file_name_of self (directory_path root_comps +:+ name)
  = directory_path root_comps +:+ name.
Proof using All.
  destruct source_last as (x & Hx & Hxsep).
  unfold cache_file_name_of, _get_cache_paths. simpl snd.
  rewrite source, source_eq. revert Hx.
  generalize (join "/" ("" :: root_comps)). intros d Hx.
  rewrite append_assoc. change ("/" +:+ name) with (String sep name).
  assert (dirname (d +:+ String sep name) = d) as ->.
  { unfold dirname, split_head_tail. rewrite rpartition_last by done.
    simpl fst. rewrite all_char_app, (all_char_last _ x Hx) by done.
    rewrite rstrip_sep_app, (rstrip_keep _ x Hx) by done.
    by destruct d. }
  assert (basename (d +:+ String sep name) = name) as ->.
  { unfold basename, split_head_tail. by rewrite rpartition_last. }
  rewrite replace_1_absent.
  - by rewrite (join2_plain _ name x)
      by (done || by apply startswith_sep_no_sep).
  - destruct (contains _ _) eqn:Hc; [|done].
    apply contains_length in Hc.
    rewrite string_length_app in Hc. simpl in Hc. lia.
Qed.

(** X8.  A file that lies directly in the real source is its own cache
    copy for [_get_cache_paths]: [dirname] drops the trailing slash the
    real source carries, so the replacement finds nothing.  Outside Unraid
    the file is its own array copy as well, and no such file is left after
    a pass of [filter_files] that decides on it. *)
Theorem root_file_does_not_survive :
  let file := directory_path root_comps +:+ name in
  cache_file_name_of self file = file
  ∧ (is_unraid self = false →
     array_file_of self file = file
     ∧ ∀ inputs destination media_to_cache files_to_skip w batch w',
         filter_files self inputs destination media_to_cache files_to_skip w
           = (Return batch, w') →
         file ∈ inputs →
         in_skip files_to_skip file = false →
         decided destination (default [] media_to_cache) file →
         files w' !! file = None).
Proof using All.
  intros file.
  assert (cache_file_name_of self file = file) as Hcache
    by apply root_file_cache_copy.
  split; [done|]. intros Hplain.
  assert (array_file_of self file = file) as Harray
    by (unfold array_file_of; by rewrite Hplain).
  split; [done|].
  intros inputs destination media_to_cache files_to_skip w batch w'
    Hrun Hin Hskip Hdec.
  destruct inputs as [|x inputs]; [by apply elem_of_nil in Hin|].
  destruct (filter_files_run self (x :: inputs) destination media_to_cache
              files_to_skip w) as (st' & w1 & Hloop & Hfiles); [done|].
  rewrite Hfiles, Hplain in Hrun. injection Hrun as <- <-.
  fold filter_start in Hloop.
  pose proof (filter_loop_separates_all self _ _ _ _ _ _ _ Hloop file Hin Hskip Hdec)
    as Hsep.
  apply eq_None_not_Some. intros Hsome. apply Hsep.
  unfold on_both_tiers. fold (cache_file_name_of self file).
  by rewrite Hcache, Harray.
Qed.

End root_file.

Lemma root_file_does_not_survive_witness :
  let self := {| FileFilter.real_source := "/data/media/";
                 FileFilter.cache_dir := "/cache/";
                 FileFilter.is_unraid := false;
                 FileFilter.mover_cache_exclude_file := "" |} in
  let w := {| files := {[ "/data/media/a.mkv" := "A" ]};
              dirs := {[ "/data/media" ]}; denied := ∅; cwd := "/";
              stdout := []; summary_messages := []; files_moved := false |} in
  ∃ w',
    FileFilter.filter_files self ["/data/media/a.mkv"] "cache" None None w
      = (Return [], w')
    ∧ is_Some (files w !! "/data/media/a.mkv")
    ∧ cache_file_name_of self "/data/media/a.mkv" = "/data/media/a.mkv"
    ∧ files w' !! "/data/media/a.mkv" = None.
Proof.
  intros self w.
  exists (snd (FileFilter.filter_files self ["/data/media/a.mkv"] "cache" None None w)).
  assert (FileFilter.filter_files self ["/data/media/a.mkv"] "cache" None None w
          = (Return [],
             snd (FileFilter.filter_files self ["/data/media/a.mkv"] "cache" None
                    None w))) as Hrun
    by (vm_compute; reflexivity).
  destruct (root_file_does_not_survive self ["data"; "media"] "a.mkv"
              eq_refl ltac:(repeat constructor) ltac:(discriminate) eq_refl)
    as [Hcache Hplain].
  destruct (Hplain eq_refl) as [_ Hgone].
  split; [exact Hrun|]. split; [vm_compute; eauto|]. split; [exact Hcache|].
  apply (Hgone ["/data/media/a.mkv"] "cache" None None w [] _ Hrun).
  - apply list_elem_of_here.
  - reflexivity.
  - left. reflexivity.
Defined.

(** ** [FileMover] *)

Section tiered_mover_more.
Import PyStr PosixPath FileMover.
Variable self : FileMover.t.

Lemma rpartition_present c s :
  has_char c s = true → ∃ b t, rpartition c s = Some (b, t).
Proof.
  induction s as [|a s IH]; simpl; [done|]. intros H.
  destruct (rpartition c s) as [[b t]|] eqn:Hr; [by eexists _, _|].
  destruct (Ascii.eqb a c); [by eexists _, _|].
  destruct (IH H) as (? & ? & ?). done.
Qed.

Lemma rstrip_empty c s : rstrip c s = "" → all_char c s = true.
Proof.
  induction s as [|a s IH]; simpl; [done|].
  destruct (rstrip c s); [|done].
  destruct (Ascii.eqb a c); [|done]. intros _. by rewrite IH.
Qed.

Lemma dirname_empty file :
  is_empty (dirname file) = true ↔ has_char sep file = false.
Proof.
  unfold dirname, split_head_tail. split.
  - destruct (has_char sep file) eqn:Hsep; [|done].
    destruct (rpartition_present _ _ Hsep) as (b & t & ->). simpl fst.
    assert (is_empty (b +:+ "/") = false) as Hhead by by destruct b.
    rewrite Hhead. simpl negb.
    destruct (all_char sep (b +:+ "/")) eqn:Hall; simpl; [by rewrite Hhead|].
    destruct (rstrip sep (b +:+ "/")) eqn:Hstrip; [|done].
    apply rstrip_empty in Hstrip. congruence.
  - intros Hsep. by rewrite rpartition_absent.
Qed.

Lemma get_paths_raises here file :
  is_empty (dirname file) = true →
  _get_paths self here file = Raise (ValueError "no path specified").
Proof. intros Hdir. unfold _get_paths, relpath. by rewrite Hdir. Qed.

Lemma plan_loop_raises destination inputs :
  ∀ st w,
    (∀ file, file ∈ processed_files st → is_empty (dirname file) = false) →
    Exists (fun file => is_empty (dirname file) = true) inputs →
    ∃ w', for_each inputs (plan_body self destination) st w
          = (Raise (ValueError "no path specified"), w').
Proof.
  induction inputs as [|x inputs IH]; intros st w Hseen Hbad.
  { by apply Exists_nil in Hbad. }
  simpl. unfold bind at 1. rewrite plan_body_run.
  case_bool_decide as Hx.
  { apply IH; [done|]. apply Exists_cons in Hbad as [Hbad|]; [|done].
    rewrite (Hseen x Hx) in Hbad. done. }
  destruct (is_empty (dirname x)) eqn:Hdir.
  { rewrite get_paths_raises by done. by eexists. }
  destruct (get_paths_returns self (cwd w) x Hdir) as [paths ->].
  apply IH.
  - simpl. intros file [->%elem_of_singleton|?]%elem_of_union; auto.
  - apply Exists_cons in Hbad as [Hbad|]; [congruence | done].
Qed.

Lemma move_file_run cmd w :
  (∃ n w', _move_file self cmd w = (Return n, w') ∧ n ≤ 1)
  ∨ ∃ e w', _move_file self cmd w = (Raise e, w') ∧ is_Exception e = false.
Proof.
  destruct cmd as [src dest]. unfold _move_file, try_except, bind, ret.
  destruct (FileUtils.move_file _ src dest w) as [[[]|e] w'].
  - left. eexists _, _. split; [done | lia].
  - destruct (is_Exception e) eqn:He.
    + left. eexists _, _. split; [done | lia].
    + right. by eexists _, _.
Qed.

Lemma map_M_cons {A B} (f : A → M B) x xs w :
  map_M f (x :: xs) w
  = match f x w with
    | (Return y, w1) =>
        match map_M f xs w1 with
        | (Return ys, w2) => (Return (y :: ys), w2)
        | (Raise e, w2) => (Raise e, w2)
        end
    | (Raise e, w1) => (Raise e, w1)
    end.
Proof. reflexivity. Qed.

Lemma move_all_run cmds :
  ∀ w,
    (∃ results w', map_M (_move_file self) cmds w = (Return results, w')
                   ∧ length results = length cmds
                   ∧ Forall (fun n => n ≤ 1) results)
    ∨ ∃ e w', map_M (_move_file self) cmds w = (Raise e, w')
              ∧ is_Exception e = false.
Proof.
  induction cmds as [|cmd cmds IH]; intros w.
  { left. by eexists _, _. }
  rewrite map_M_cons.
  destruct (move_file_run cmd w) as [(n & w1 & -> & Hn) | (e & w1 & -> & He)];
    [|right; by eexists _, _].
  destruct (IH w1) as [(results & w2 & -> & Hlen & Hall) | (e & w2 & -> & He)];
    [left | right]; eexists _, _; split; try done.
  split; [simpl; by rewrite Hlen | by constructor].
Qed.

Lemma count_failures results :
  Forall (fun n => n ≤ 1) results →
  length (List.filter (fun r => negb (Nat.eqb r 0)) results) = list_sum results.
Proof.
  induction 1 as [|n results Hn _ IH]; [done|].
  simpl. destruct n as [|[|n]]; simpl; [done | by rewrite IH | lia].
Qed.

Lemma execute_run cmds (a c : Z) destination w :
  let workers := if String.eqb destination "array" then a else c in
  if debug self
  then _execute_move_commands self cmds a c destination w
       = (Return tt, set_stdout (fun out => out ++ (MoveCmd <$> cmds)) w)
  else if (workers <=? 0)%Z
  then _execute_move_commands self cmds a c destination w
       = (Raise (ValueError "max_workers must be greater than 0"), w)
  else (∃ results w',
          map_M (_move_file self) cmds w = (Return results, w')
          ∧ length results = length cmds
          ∧ Forall (fun n => n ≤ 1) results
          ∧ _execute_move_commands self cmds a c destination w
            = (Return tt,
               set_stdout (fun out => out ++ [Finished (list_sum results)]) w'))
       ∨ ∃ e w',
           _execute_move_commands self cmds a c destination w = (Raise e, w')
           ∧ is_Exception e = false.
Proof.
  intros workers. unfold _execute_move_commands. fold workers.
  destruct (debug self); [apply print_commands_run|].
  destruct (workers <=? 0)%Z; [done|].
  unfold bind.
  destruct (move_all_run cmds w) as [(results & w' & Hrun & Hlen & Hall)
                                     | (e & w' & Hrun & He)]; rewrite Hrun.
  - left. exists results, w'. repeat split; try done.
    by rewrite <- (count_failures results Hall).
  - right. by eexists _, _.
Qed.





(** X10.  [move_media_files] raises [ValueError] "no path specified"
    exactly when some input is a bare file name, without a slash.  It then
    has moved and printed nothing, whatever the mode and the other inputs:
    planning can only have created directories. *)
Theorem move_media_files_bare_name inputs destination (a c : Z) w :
  let r := move_media_files self inputs destination a c w in
  ((∃ file, file ∈ inputs ∧ has_char sep file = false)
   ↔ fst r = Raise (ValueError "no path specified"))
  ∧ (fst r = Raise (ValueError "no path specified") → plans_from w (snd r)).
Proof.
  intros r.
  set (bad := fun file => is_empty (dirname file) = true).
  assert (Exists bad inputs →
          ∃ w', r = (Raise (ValueError "no path specified"), w')
                ∧ plans_from w w') as Hraises.
  { intros Hbad.
    destruct (plan_loop_raises destination inputs
                {| processed_files := ∅; move_commands := [] |} w)
      as [w' Hloop]; [set_solver | done |].
    exists w'. split.
    - unfold r, move_media_files, plan_moves, bind. by rewrite Hloop.
    - by apply (plan_loop_frame self destination inputs _ _ _ _ Hloop). }
  assert (¬ Exists bad inputs →
          fst r ≠ Raise (ValueError "no path specified")) as Hreturns.
  { intros Hgood%not_Exists_Forall; [|intros ?; apply _].
    assert (Forall (fun file => is_empty (dirname file) = false) inputs) as Hall.
    { eapply Forall_impl; [exact Hgood|]. intros file. unfold bad. simpl.
      by destruct (is_empty _). }
    destruct (plan_loop_returns self destination inputs Hall
                {| processed_files := ∅; move_commands := [] |} w)
      as (st' & w' & Hloop).
    unfold r, move_media_files, plan_moves, bind, ret. rewrite Hloop.
    pose proof (execute_run (move_commands st') a c destination w') as Hrun.
    cbv zeta in Hrun.
    destruct (debug self); [by rewrite Hrun|].
    destruct (_ <=? 0)%Z; [by rewrite Hrun|].
    destruct Hrun as [(? & ? & _ & _ & _ & ->) | (e & ? & -> & He)]; [done|].
    simpl. intros [= ->]. done. }
  destruct (decide (Exists bad inputs)) as [Hbad | Hgood].
  - destruct (Hraises Hbad) as (w' & Hr & Hframe). rewrite Hr. simpl.
    split; [|done]. split; [done|]. intros _.
    apply Exists_exists in Hbad as (file & Hin & Hfile).
    exists file. split; [done|]. by apply dirname_empty.
  - split; [|intros Hr; by apply Hreturns in Hr].
    split; [|intros Hr; by apply Hreturns in Hr].
    intros (file & Hin & Hfile). exfalso. apply Hgood.
    apply Exists_exists. exists file. split; [done|]. by apply dirname_empty.
Qed.

End tiered_mover_more.


(** ** The decision stage and the move stage on the array side *)

Section array_side.
Import PyStr PosixPath.
Variable filter_ : FileFilter.t.
Variable mover : FileMover.t.
Variables root_comps dir_comps : list string.
Variable name : string.

Hypothesis same_unraid : FileMover.is_unraid mover = FileFilter.is_unraid filter_.
Hypothesis share : FileFilter.is_unraid filter_ = true → root_comps = ["mnt"; "user"].
Hypothesis dir_ok : Forall (fun c => is_component c = true) dir_comps.
Hypothesis below : dir_comps ≠ [].
Hypothesis name_ok : has_char sep name = false.

Lemma join_dir_name prefix :
  join2 (prefix +:+ join "/" dir_comps) name
  = prefix +:+ join "/" (dir_comps ++ [name]).
Proof using below dir_ok name_ok.
  destruct (directory_last dir_comps dir_ok below prefix) as (x & Hx & Hxsep).
  rewrite (join2_plain _ name x) by (done || by apply startswith_sep_no_sep).
  rewrite join_app by done. by rewrite !append_assoc.
Qed.

Lemma array_file_below :
  let array_root :=
    if FileFilter.is_unraid filter_ then "/mnt/user0/"
    else directory_path root_comps in
  FileFilter.array_file_of filter_ (file_below root_comps dir_comps name)
  = array_root +:+ join "/" (dir_comps ++ [name]).
Proof using share.
  clear same_unraid. unfold FileFilter.array_file_of, file_below.
  destruct (FileFilter.is_unraid filter_); [|done].
  rewrite share by done.
  change (directory_path ["mnt"; "user"]) with "/mnt/user/".
  apply replace_1_prefix.
Qed.

Lemma user_path_below :
  let array_root :=
    if FileFilter.is_unraid filter_ then "/mnt/user0/"
    else directory_path root_comps in
  (if FileMover.is_unraid mover
   then replace_1 (directory_below root_comps dir_comps) "/mnt/user/" "/mnt/user0/"
   else directory_below root_comps dir_comps)
  = array_root +:+ join "/" dir_comps.
Proof using same_unraid share below.
  rewrite same_unraid, directory_eq by done.
  destruct (FileFilter.is_unraid filter_); [|done].
  rewrite share by done.
  change (directory_path ["mnt"; "user"]) with "/mnt/user/".
  apply replace_1_prefix.
Qed.

Lemma directory_below_not_empty :
  is_empty (directory_below root_comps dir_comps) = false.
Proof using below.
  unfold directory_below. rewrite join_absolute; [done|].
  by intros [_ ?]%app_eq_nil.
Qed.

(** X11.  For a file in a proper subdirectory (of the user share on
    Unraid, of any directory elsewhere) the two stages name the same array
    copy: the [user_file_name] of [FileMover._get_paths] is the array file
    of [FileFilter], whatever the real source and the cache directory. *)
Theorem array_paths_agree_in_subdirectories here :
  let file := file_below root_comps dir_comps name in
  ∃ user_path cache_path cache_file_name,
    FileMover._get_paths mover here file
    = Return (user_path, cache_path, cache_file_name,
              FileFilter.array_file_of filter_ file).
Proof using All.
  intros file. unfold FileMover._get_paths. fold file. unfold file.
  rewrite dirname_file, basename_file by done.
  unfold relpath. rewrite directory_below_not_empty.
  rewrite user_path_below, join_dir_name, array_file_below.
  destruct (_ ++ _); by eexists _, _, _.
Qed.

End array_side.

Section stages_compose.
Import PyStr PosixPath.
Variable filter_ : FileFilter.t.
Variable mover : FileMover.t.
Variables root_comps dir_comps : list string.
Variable name : string.

Hypothesis filter_source : FileFilter.real_source filter_ = directory_path root_comps.
Hypothesis mover_source : FileMover.real_source mover = directory_path root_comps.
Hypothesis same_cache : FileMover.cache_dir mover = FileFilter.cache_dir filter_.
Hypothesis same_unraid : FileMover.is_unraid mover = FileFilter.is_unraid filter_.
Hypothesis share : FileFilter.is_unraid filter_ = true → root_comps = ["mnt"; "user"].
Hypothesis cache_slash : endswith (FileFilter.cache_dir filter_) "/" = true.
Hypothesis root_ok : Forall (fun c => is_component c = true) root_comps.
Hypothesis dir_ok : Forall (fun c => is_component c = true) dir_comps.
Hypothesis below : dir_comps ≠ [].
Hypothesis name_ok : has_char sep name = false.

Lemma cache_file_name_below :
  cache_file_name_of filter_ (file_below root_comps dir_comps name)
  = FileFilter.cache_dir filter_ +:+ join "/" (dir_comps ++ [name]).
Proof using filter_source dir_ok below name_ok.
  unfold cache_file_name_of, FileFilter._get_cache_paths. simpl snd.
  rewrite dirname_file, basename_file, filter_source, directory_eq by done.
  rewrite replace_1_prefix. by apply join_dir_name.
Qed.

Lemma get_paths_below here :
  ∃ user_path,
    FileMover._get_paths mover here (file_below root_comps dir_comps name)
    = Return (user_path,
              FileFilter.cache_dir filter_ +:+ join "/" dir_comps,
              FileFilter.cache_dir filter_ +:+ join "/" (dir_comps ++ [name]),
              FileFilter.array_file_of filter_
                (file_below root_comps dir_comps name)).
Proof using All.
  unfold FileMover._get_paths.
  rewrite dirname_file, basename_file, mover_source by done.
  unfold directory_below at 1. rewrite relpath_below by done.
  rewrite same_cache, (join2_after_sep (FileFilter.cache_dir filter_)).
  - rewrite (user_path_below filter_ mover), !join_dir_name by done.
    rewrite (array_file_below filter_) by done. by eexists.
  - done.
  - replace dir_comps with (dir_comps ++ []) by apply app_nil_r.
    apply startswith_sep_join; [done | by left].
Qed.

(** X12.  What the decision stage admits for the cache, the move stage
    plans: when every input has a directory part, each file of the batch
    of [filter_files] that lies in a proper subdirectory of the real
    source gets a move command from [plan_moves], from its array copy to
    its directory below the cache directory. *)
Theorem cache_batch_is_planned inputs media_to_cache files_to_skip w batch w1 :
  let file := file_below root_comps dir_comps name in
  Forall (fun f => has_char sep f = true) inputs →
  FileFilter.filter_files filter_ inputs "cache" media_to_cache files_to_skip w
    = (Return batch, w1) →
  file ∈ batch →
  FileFilter.mover_cache_exclude_file filter_ ≠ cache_file_name_of filter_ file →
  ∃ cmds w2,
    FileMover.plan_moves mover batch "cache" w1 = (Return cmds, w2)
    ∧ (FileFilter.array_file_of filter_ file,
       FileFilter.cache_dir filter_ +:+ join "/" dir_comps) ∈ cmds.
Proof using All.
  intros file Hdirs Hrun Hin Hexcl.
  destruct inputs as [|x inputs].
  { injection Hrun as <- <-. by apply elem_of_nil in Hin. }
  destruct (filter_files_run filter_ (x :: inputs) "cache" media_to_cache
              files_to_skip w) as (st' & w0 & Hloop & Hfiles); [done|].
  rewrite Hfiles in Hrun. injection Hrun as <- <-.
  apply filter_loop_batch in Hloop as (l & Hl & Hsub & Hall).
  simpl in Hl. rewrite Hl in *.
  assert (files (if FileFilter.is_unraid filter_
                 then set_files
                        (<[FileFilter.mover_cache_exclude_file filter_ :=
                             FileFilter.exclude_text
                               (FileFilter.cache_files_to_exclude st')]>) w0
                 else w0) !! cache_file_name_of filter_ file = None) as Hnone.
  { eapply Forall_forall in Hall; [|exact Hin].
    destruct Hall as [(? & _) | (_ & Hc)]; [done|].
    destruct (FileFilter.is_unraid filter_); [|done].
    simpl. by rewrite lookup_insert_ne. }
  set (w1 := if FileFilter.is_unraid filter_ then _ else w0) in *.
  assert (Forall (fun f => is_empty (dirname f) = false) l) as Hgood.
  { apply Forall_forall. intros f Hf.
    eapply elem_of_sublist in Hf; [|exact Hsub].
    apply considered_elem in Hf as (Hf & _).
    eapply Forall_forall in Hdirs; [|exact Hf]. simpl in Hdirs.
    destruct (is_empty (dirname f)) eqn:Hd; [|done].
    apply dirname_empty in Hd. congruence. }
  destruct (plan_loop_returns mover "cache" l Hgood
              {| FileMover.processed_files := ∅; FileMover.move_commands := [] |}
              w1) as (st2 & w2 & Hplan).
  exists (FileMover.move_commands st2), w2. split.
  { unfold FileMover.plan_moves, bind, ret. by rewrite Hplan. }
  apply plan_loop_commands in Hplan. rewrite Hplan. simpl.
  apply list_elem_of_omap. exists file. split.
  { apply considered_elem. set_solver. }
  unfold planned, file. destruct (get_paths_below (cwd w1)) as [user_path ->].
  unfold move_command. simpl.
  unfold file in Hnone. rewrite cache_file_name_below in Hnone. rewrite Hnone.
  by rewrite bool_decide_eq_false_2 by by intros [? ?].
Qed.

End stages_compose.

Lemma array_paths_agree_in_subdirectories_witness :
  ∃ user_path cache_path cache_file_name,
    FileMover._get_paths (Examples.file_mover false) "/" "/mnt/user/movies/b.mkv"
    = Return (user_path, cache_path, cache_file_name, "/mnt/user0/movies/b.mkv").
Proof.
  apply (array_paths_agree_in_subdirectories Examples.file_filter
           (Examples.file_mover false) ["mnt"; "user"] ["movies"] "b.mkv").
  - reflexivity.
  - reflexivity.
  - repeat constructor.
  - discriminate.
  - reflexivity.
Defined.

Lemma cache_batch_is_planned_witness :
  ∃ cmds w2,
    FileMover.plan_moves (Examples.file_mover false) ["/mnt/user/movies/b.mkv"]
      "cache"
      (snd (FileFilter.filter_files Examples.file_filter
              ["/mnt/user/movies/b.mkv"] "cache" None None Examples.array_world))
      = (Return cmds, w2)
    ∧ ("/mnt/user0/movies/b.mkv", "/mnt/cache/movies") ∈ cmds.
Proof.
  apply (cache_batch_is_planned Examples.file_filter (Examples.file_mover false)
           ["mnt"; "user"] ["movies"] "b.mkv"
           eq_refl eq_refl eq_refl eq_refl ltac:(reflexivity) eq_refl
           ltac:(repeat constructor) ltac:(repeat constructor)
           ltac:(discriminate) eq_refl
           ["/mnt/user/movies/b.mkv"] None None Examples.array_world
           ["/mnt/user/movies/b.mkv"]).
  - repeat constructor.
  - vm_compute. reflexivity.
  - apply list_elem_of_here.
  - vm_compute. discriminate.
Defined.

(** ** [PlexCacheApp]: the move orchestration *)

Section orchestration.
Import PlexCacheApp.
Variable self : PlexCacheApp.t.

Lemma size_multipliers_unknown unit :
  (unit ∉ known_units) → size_multipliers unit = Raise (KeyError unit).
Proof.
  intros Hunit. unfold size_multipliers.
  repeat match goal with
         | |- context [String.eqb unit ?s] =>
             let H := fresh in
             destruct (String.eqb unit s) eqn:H;
             [apply String.eqb_eq in H; exfalso; apply Hunit; rewrite H;
              unfold known_units; set_solver | clear H]
         end.
  done.
Qed.

Lemma size_multipliers_known unit :
  unit ∈ known_units → ∃ m, size_multipliers unit = Return m.
Proof.
  unfold known_units. rewrite !elem_of_cons, elem_of_nil.
  intros [->|[->|[->|[->|[]]]]]; by eexists.
Qed.

Lemma to_bytes_error size unit e :
  to_bytes size unit = Raise e → e = KeyError unit.
Proof.
  unfold to_bytes, size_multipliers.
  repeat (destruct (String.eqb unit _); [done|]). simpl. by intros [= <-].
Qed.

Lemma check_run media_files destination w batch w1 :
  FileFilter.filter_files (file_filter self) media_files destination
    (Some (media_to_cache self)) (Some (list_to_set (files_to_skip self))) w
  = (Return batch, w1) →
  let total :=
    FileUtils.get_total_size_of_files (file_utils self) (files w1) batch in
  let free :=
    FileUtils.get_free_space (file_utils self) (files w1)
      (if String.eqb destination "cache" then cache_dir self
       else real_source self) in
  let w2 := announced destination total free w1 in
  _check_free_space_and_move_files self media_files destination
    (real_source self) (cache_dir self) w
  = if gt (fst total) 0 then
      match to_bytes (fst total) (snd total) with
      | Raise e => (Raise e, w2)
      | Return total_bytes =>
          match to_bytes (fst free) (snd free) with
          | Raise e => (Raise e, w2)
          | Return free_bytes =>
              if gt total_bytes free_bytes then
                if debug self then
                  FileMover.move_media_files (file_mover self) batch destination
                    (max_concurrent_moves_array self)
                    (max_concurrent_moves_cache self)
                    (set_stdout (fun out => out ++ [MovingMedia destination])
                       (set_stdout
                          (fun out => out ++ [NotEnoughSpace destination]) w2))
                else
                  (Raise (SystemExit
                            ("Not enough space on " +:+ destination +:+ " drive.")),
                   w2)
              else
                FileMover.move_media_files (file_mover self) batch destination
                  (max_concurrent_moves_array self)
                  (max_concurrent_moves_cache self)
                  (set_stdout (fun out => out ++ [MovingMedia destination]) w2)
          end
      end
    else (Return tt, nothing_moved destination w1).
Proof.
  intros Hfilter total free w2.
  unfold _check_free_space_and_move_files. unfold bind at 1. rewrite Hfilter.
  unfold bind at 1. unfold gets at 1. fold total.
  unfold w2, announced, nothing_moved. clear w2.
  destruct total as [total_size total_size_unit]. simpl fst. simpl snd.
  destruct (gt total_size 0).
  - unfold bind, OS.print, add_summary_message, modify, gets, lift. simpl.
    fold free. destruct free as [free_space free_space_unit]. simpl.
    destruct (to_bytes total_size total_size_unit); [|done].
    destruct (to_bytes free_space free_space_unit); [|done].
    destruct (gt _ _); [|done]. by destruct (debug self).
  - unfold bind, OS.print, modify, gets, ret. simpl.
    destruct (files_moved w1) eqn:Hmoved; simpl; by rewrite ?Hmoved.
Qed.

Lemma guarded_run media_files destination w :
  guarded_check self media_files destination w
  = match _check_free_space_and_move_files self media_files destination
            (real_source self) (cache_dir self) w with
    | (Return tt, w') => (Return tt, w')
    | (Raise e, w') =>
        if is_Exception e then
          if debug self
          then (Return tt,
                set_stdout (fun out => out ++ [ErrorMsg ("Error: " +:+ exn_str e)]) w')
          else (Raise (SystemExit ("Error: " +:+ exn_str e)), w')
        else (Raise e, w')
    end.
Proof.
  unfold guarded_check, try_except, on_move_error.
  destruct (_check_free_space_and_move_files _ _ _ _ _ _) as [[[]|e] w']; [done|].
  destruct (is_Exception e); [|done]. by destruct (debug self).
Qed.

(** X13.  When the batch has a positive size and the unit of the total
    size or of the free space is none of KB, MB, GB and TB, the check
    raises [KeyError] for the first such unit, after the announcement and
    before any move.  The guarded call turns it into [SystemExit] outside
    debug mode; in debug mode the error is printed and the call returns. *)
Theorem unknown_unit_stops media_files destination w :
  ∃ batch w1,
    FileFilter.filter_files (file_filter self) media_files destination
      (Some (media_to_cache self)) (Some (list_to_set (files_to_skip self))) w
    = (Return batch, w1)
    ∧ let total :=
        FileUtils.get_total_size_of_files (file_utils self) (files w1) batch in
      let free :=
        FileUtils.get_free_space (file_utils self) (files w1)
          (if String.eqb destination "cache" then cache_dir self
           else real_source self) in
      let w2 := announced destination total free w1 in
      gt (fst total) 0 = true →
      (snd total ∉ known_units) ∨ (snd free ∉ known_units) →
      ∃ unit,
        (unit ∉ known_units)
        ∧ unit = (if bool_decide (snd total ∈ known_units)
                  then snd free else snd total)
        ∧ _check_free_space_and_move_files self media_files destination
            (real_source self) (cache_dir self) w
          = (Raise (KeyError unit), w2)
        ∧ guarded_check self media_files destination w
          = if debug self
            then (Return tt,
                  set_stdout
                    (fun out =>
                       out ++ [ErrorMsg ("Error: " +:+ exn_str (KeyError unit))])
                    w2)
            else (Raise (SystemExit ("Error: " +:+ exn_str (KeyError unit))), w2).
Proof.
  destruct (filter_files_returns (file_filter self) media_files destination
              (Some (media_to_cache self)) (Some (list_to_set (files_to_skip self))) w)
    as (batch & w1 & Hfilter).
  exists batch, w1. split; [done|]. intros total free w2 Hpos Hunit.
  pose proof (check_run media_files destination w batch w1 Hfilter) as Hcheck.
  cbv zeta in Hcheck. fold total free in Hcheck. fold w2 in Hcheck.
  rewrite Hpos in Hcheck.
  assert (∃ unit,
            (unit ∉ known_units)
            ∧ unit = (if bool_decide (snd total ∈ known_units)
                      then snd free else snd total)
            ∧ _check_free_space_and_move_files self media_files destination
                (real_source self) (cache_dir self) w
              = (Raise (KeyError unit), w2)) as (unit & Hunknown & Hwhich & Hraise).
  { case_bool_decide as Htotal.
    - exists (snd free). destruct Hunit as [?|Hfree]; [done|].
      split; [done|]. split; [done|]. rewrite Hcheck. unfold to_bytes.
      destruct (size_multipliers_known _ Htotal) as [m ->]. simpl.
      by rewrite (size_multipliers_unknown _ Hfree).
    - exists (snd total). split; [done|]. split; [done|].
      rewrite Hcheck. unfold to_bytes.
      by rewrite (size_multipliers_unknown _ Htotal). }
  exists unit. split; [done|]. split; [done|]. split; [done|].
  by rewrite guarded_run, Hraise.
Qed.

Section summary.
Hypothesis move_file_frame :
  ∀ src dest w r w',
    FileUtils.move_file (FileMover.file_utils (file_mover self)) src dest w = (r, w') →
    same_summary w w'.

Lemma same_summary_trans w1 w2 w3 :
  same_summary w1 w2 → same_summary w2 w3 → same_summary w1 w3.
Proof. intros [? ?] [? ?]. split; congruence. Qed.

Lemma move_all_keeps_summary cmds :
  ∀ w r w',
    map_M (FileMover._move_file (file_mover self)) cmds w = (r, w') →
    same_summary w w'.
Proof using move_file_frame.
  induction cmds as [|[src dest] cmds IH]; intros w r w' Hrun.
  { by injection Hrun as <- <-. }
  rewrite map_M_cons in Hrun.
  unfold FileMover._move_file, try_except, bind, ret in Hrun.
  destruct (FileUtils.move_file _ src dest w) as [[[]|e] w1] eqn:Hmove;
    apply move_file_frame in Hmove.
  - destruct (map_M _ cmds w1) as [[results|e] w2] eqn:Hrest;
      apply IH in Hrest; injection Hrun as <- <-;
      by eapply same_summary_trans.
  - destruct (is_Exception e).
    + destruct (map_M _ cmds w1) as [[results|e'] w2] eqn:Hrest;
        apply IH in Hrest; injection Hrun as <- <-;
        by eapply same_summary_trans.
    + by injection Hrun as <- <-.
Qed.

Lemma move_media_keeps_summary inputs destination (a c : Z) w r w' :
  FileMover.move_media_files (file_mover self) inputs destination a c w = (r, w') →
  same_summary w w'.
Proof using move_file_frame.
  unfold FileMover.move_media_files, FileMover.plan_moves, bind.
  destruct (for_each _ _ _ _) as [[st'|e] w1] eqn:Hloop;
    apply plan_loop_frame in Hloop as [(_ & _ & _ & _ & _ & Hs & Hm) _].
  2: { intros [= <- <-]. by split. }
  unfold ret, FileMover._execute_move_commands.
  destruct (FileMover.debug _).
  { rewrite print_commands_run. intros [= <- <-]. by split. }
  destruct (_ <=? 0)%Z.
  { intros [= <- <-]. by split. }
  unfold bind.
  destruct (map_M _ _ w1) as [[results|e] w2] eqn:Hmoves;
    apply move_all_keeps_summary in Hmoves as [Hs2 Hm2];
    intros [= <- <-]; split; simpl; congruence.
Qed.

Lemma filter_files_frame inputs destination media_to_cache files_to_skip w batch w1 :
  FileFilter.filter_files (file_filter self) inputs destination media_to_cache
    files_to_skip w = (Return batch, w1) →
  same_summary w w1.
Proof.
  destruct inputs as [|x inputs]; [intros [= <- <-]; by split|].
  destruct (filter_files_run (file_filter self) (x :: inputs) destination
              media_to_cache files_to_skip w) as (st' & w0 & Hloop & ->); [done|].
  intros [= <- <-].
  destruct (filter_loop_spec (file_filter self) destination
              (default [] media_to_cache) files_to_skip (x :: inputs)
              {| FileFilter.processed_files := ∅; FileFilter.media_to := [];
                 FileFilter.cache_files_to_exclude := [] |} w)
    as (st2 & w2 & Hloop2 & _ & _ & _ & (_ & _ & _ & _ & Hs & Hm)).
  rewrite Hloop in Hloop2. injection Hloop2 as <- <-.
  by destruct (FileFilter.is_unraid _).
Qed.

Lemma pass_keeps_summary_ok media_files destination w r w' :
  files_moved w = false ∨ summary_ok w →
  guarded_check self media_files destination w = (r, w') →
  summary_ok w'.
Proof using move_file_frame.
  intros Hbefore.
  destruct (filter_files_returns (file_filter self) media_files destination
              (Some (media_to_cache self)) (Some (list_to_set (files_to_skip self))) w)
    as (batch & w1 & Hfilter).
  pose proof (filter_files_frame _ _ _ _ _ _ _ Hfilter) as [Hs1 Hm1].
  rewrite guarded_run, (check_run media_files destination w batch w1 Hfilter).
  cbv zeta.
  set (total := FileUtils.get_total_size_of_files _ _ _).
  set (free := FileUtils.get_free_space _ _ _).
  assert (summary_ok (nothing_moved destination w1)) as Hnothing.
  { unfold summary_ok, nothing_moved.
    destruct (files_moved w1) eqn:Hmoved; simpl; rewrite ?Hmoved; [|done].
    destruct Hbefore as [?|Hok]; [congruence|].
    unfold summary_ok in Hok. rewrite <- Hm1 in Hok. by rewrite Hs1. }
  assert (∀ w2, same_summary (announced destination total free w1) w2 →
                summary_ok w2) as Hannounced.
  { intros w2 [Hs2 Hm2]. unfold summary_ok. rewrite Hm2, Hs2. simpl.
    destruct (files_moved w1) eqn:Hmoved.
    - destruct Hbefore as [?|Hok]; [congruence|].
      unfold summary_ok in Hok. rewrite <- Hm1, <- Hs1 in Hok.
      destruct Hok as [_ Hall]. split; [by intros [_ ?]%app_eq_nil|].
      apply Forall_app. split; [done | by repeat constructor].
    - split; [done | by repeat constructor]. }
  assert (∀ w2 r w3 (a c : Z),
            same_summary (announced destination total free w1) w2 →
            FileMover.move_media_files (file_mover self) batch destination a c w2
              = (r, w3) →
            same_summary (announced destination total free w1) w3) as Hmoved.
  { intros w2 r0 w3 a c Hsame Hmove.
    eapply same_summary_trans; [exact Hsame|].
    by eapply move_media_keeps_summary. }
  assert (∀ (r0 : result unit) w2,
            same_summary (announced destination total free w1) w2 →
            match r0 with
            | Return tt => (Return tt, w2)
            | Raise e =>
                if is_Exception e then
                  if debug self
                  then (Return tt,
                        set_stdout
                          (fun out => out ++ [ErrorMsg ("Error: " +:+ exn_str e)]) w2)
                  else (Raise (SystemExit ("Error: " +:+ exn_str e)), w2)
                else (Raise e, w2)
            end = (r, w') → summary_ok w') as Hhandled.
  { intros r0 w2 Hsame Hr. apply Hannounced.
    destruct r0 as [[]|e]; [by injection Hr as <- <-|].
    destruct (is_Exception e); [|by injection Hr as <- <-].
    destruct (debug self); injection Hr as <- <-; [|done].
    destruct Hsame. by split. }
  destruct (gt (fst total) 0).
  2: { intros [= <- <-]. done. }
  destruct (to_bytes (fst total) (snd total)) as [total_bytes|e].
  2: { apply (Hhandled (Raise e)). by split. }
  destruct (to_bytes (fst free) (snd free)) as [free_bytes|e].
  2: { apply (Hhandled (Raise e)). by split. }
  destruct (gt total_bytes free_bytes).
  - destruct (debug self) eqn:Hdebug.
    + destruct (FileMover.move_media_files _ _ _ _ _ _) as [r0 w3] eqn:Hmove.
      apply Hmoved in Hmove; [|by split].
      by apply Hhandled.
    + intros [= <- <-]. apply Hannounced. by split.
  - destruct (FileMover.move_media_files _ _ _ _ _ _) as [r0 w3] eqn:Hmove.
    apply Hmoved in Hmove; [|by split]. by apply Hhandled.
Qed.

(** X14.  Let [move_file] leave the summary of the logging manager alone.
    Started before any file has been moved, [_move_files] leaves a summary
    that tells what happened, however it ends: either no pass had anything
    to move and the summary is the one message that there were no files to
    move, or files have been moved and the summary lists the sizes
    announced and nothing else. *)
Theorem move_files_summary w r w' :
  files_moved w = false →
  _move_files self w = (r, w') →
  summary_ok w'.
Proof using move_file_frame.
  intros Hstart. rewrite move_files_guarded. unfold bind.
  destruct (watched_move self).
  - destruct (guarded_check self (media_to_array self) "array" w)
      as [[[]|e] w1] eqn:Harray;
      apply pass_keeps_summary_ok in Harray; try (by left).
    + intros Hcache. eapply pass_keeps_summary_ok; [by right | exact Hcache].
    + by intros [= <- <-].
  - unfold ret. intros Hcache.
    eapply pass_keeps_summary_ok; [by left | exact Hcache].
Qed.

End summary.

Lemma guarded_escape media_files destination w e w' :
  guarded_check self media_files destination w = (Raise e, w') →
  is_Exception e = false.
Proof.
  rewrite guarded_run.
  destruct (_check_free_space_and_move_files _ _ _ _ _ _) as [[[]|e0] w0]; [done|].
  destruct (is_Exception e0) eqn:He; [|by intros [= <- <-]].
  destruct (debug self); [done | by intros [= <- <-]].
Qed.

Lemma guarded_debug_returns media_files destination w :
  debug self = true → FileMover.debug (file_mover self) = true →
  ∃ w', guarded_check self media_files destination w = (Return tt, w').
Proof.
  intros Hdebug Hmover.
  destruct (filter_files_returns (file_filter self) media_files destination
              (Some (media_to_cache self)) (Some (list_to_set (files_to_skip self))) w)
    as (batch & w1 & Hfilter).
  rewrite guarded_run, (check_run media_files destination w batch w1 Hfilter).
  cbv zeta. rewrite Hdebug.
  assert (∀ w2 (a c : Z),
            ∃ w3,
              match FileMover.move_media_files (file_mover self) batch destination
                      a c w2 with
              | (Return tt, w') => (Return tt, w')
              | (Raise e, w') =>
                  if is_Exception e
                  then (Return tt,
                        set_stdout
                          (fun out => out ++ [ErrorMsg ("Error: " +:+ exn_str e)]) w')
                  else (Raise e, w')
              end = (Return tt, w3)) as Hmove.
  { intros w2 a c.
    destruct (FileMover.move_media_files _ _ _ _ _ _) as [r0 w3] eqn:Hrun.
    apply debug_move_frame in Hrun as (_ & _ & [-> | ->]); [| |done];
      by eexists. }
  set (total := FileUtils.get_total_size_of_files _ _ _).
  set (free := FileUtils.get_free_space _ _ _).
  destruct (gt _ 0); [|by eexists].
  destruct (to_bytes (fst total) (snd total)) as [total_bytes|e] eqn:Htotal.
  2: { apply to_bytes_error in Htotal as ->. by eexists. }
  destruct (to_bytes (fst free) (snd free)) as [free_bytes|e] eqn:Hfree.
  2: { apply to_bytes_error in Hfree as ->. by eexists. }
  destruct (gt total_bytes free_bytes); apply Hmove.
Qed.

(** X15.  Nothing but [SystemExit] escapes [_move_files]: every other
    exception of a pass is caught, and turned into [SystemExit] outside
    debug mode.  In debug mode, with a mover in debug mode, [_move_files]
    always returns. *)
Theorem move_files_escapes w :
  (∀ e w', _move_files self w = (Raise e, w') → ∃ msg, e = SystemExit msg)
  ∧ (debug self = true → FileMover.debug (file_mover self) = true →
     ∃ w', _move_files self w = (Return tt, w')).
Proof.
  rewrite move_files_guarded. unfold bind. split.
  - intros e w' Hrun.
    assert (is_Exception e = false) as He.
    { destruct (watched_move self).
      - destruct (guarded_check self (media_to_array self) "array" w)
          as [[[]|e0] w1] eqn:Harray.
        + eapply guarded_escape. exact Hrun.
        + injection Hrun as <- <-. eapply guarded_escape. exact Harray.
      - eapply guarded_escape. exact Hrun. }
    destruct e; try done. by eexists.
  - intros Hdebug Hmover. destruct (watched_move self).
    + destruct (guarded_debug_returns (media_to_array self) "array" w Hdebug Hmover)
        as [w1 ->].
      apply guarded_debug_returns; done.
    + apply guarded_debug_returns; done.
Qed.

(** X16.  A dry run is not free of effects on the files: in debug mode,
    with a mover in debug mode, a guarded pass returns and leaves the files
    exactly as [filter_files] left them, redundant copies deleted and the
    exclusion file written; the move stage changes no file. *)
Theorem debug_pass_keeps_filter_effects media_files destination w :
  debug self = true → FileMover.debug (file_mover self) = true →
  ∃ batch w1 w',
    FileFilter.filter_files (file_filter self) media_files destination
      (Some (media_to_cache self)) (Some (list_to_set (files_to_skip self))) w
    = (Return batch, w1)
    ∧ guarded_check self media_files destination w = (Return tt, w')
    ∧ files w' = files w1.
Proof.
  intros Hdebug Hmover.
  destruct (filter_files_returns (file_filter self) media_files destination
              (Some (media_to_cache self)) (Some (list_to_set (files_to_skip self))) w)
    as (batch & w1 & Hfilter).
  exists batch, w1.
  rewrite guarded_run, (check_run media_files destination w batch w1 Hfilter).
  cbv zeta. rewrite Hdebug.
  set (total := FileUtils.get_total_size_of_files _ _ _).
  set (free := FileUtils.get_free_space _ _ _).
  assert (∀ w2 (a c : Z),
            files w2 = files w1 →
            ∃ w3,
              match FileMover.move_media_files (file_mover self) batch destination
                      a c w2 with
              | (Return tt, w') => (Return tt, w')
              | (Raise e, w') =>
                  if is_Exception e
                  then (Return tt,
                        set_stdout
                          (fun out => out ++ [ErrorMsg ("Error: " +:+ exn_str e)]) w')
                  else (Raise e, w')
              end = (Return tt, w3)
              ∧ files w3 = files w1) as Hmove.
  { intros w2 a c Hfiles.
    destruct (FileMover.move_media_files _ _ _ _ _ _) as [r0 w3] eqn:Hrun.
    apply debug_move_frame in Hrun as (Hf & _ & [-> | ->]); [| |done];
      eexists; (split; [reflexivity|]); simpl; congruence. }
  assert (files (nothing_moved destination w1) = files w1) as Hnothing.
  { unfold nothing_moved. by destruct (files_moved w1). }
  destruct (gt _ 0); [|by eexists].
  destruct (to_bytes (fst total) (snd total)) as [total_bytes|e] eqn:Htotal.
  2: { apply to_bytes_error in Htotal as ->. by eexists. }
  destruct (to_bytes (fst free) (snd free)) as [free_bytes|e] eqn:Hfree.
  2: { apply to_bytes_error in Hfree as ->. by eexists. }
  destruct (gt total_bytes free_bytes);
    match goal with
    | |- context [FileMover.move_media_files _ _ _ ?a ?c ?w2] =>
        destruct (Hmove w2 a c ltac:(reflexivity)) as (w3 & -> & Hf)
    end; by exists w3.
Qed.

End orchestration.

Lemma unknown_unit_stops_witness :
  let utils :=
    {| FileUtils.move_file := fun _ _ => ret tt;
       FileUtils.get_total_size_of_files := fun _ _ => (5%Q, "B");
       FileUtils.get_free_space := fun _ _ => (3%Q, "GB") |} in
  ∃ w2,
    guarded_check (Examples.app false utils) ["/mnt/user/movies/b.mkv"] "cache"
      Examples.array_world
    = (Raise (SystemExit "Error: 'B'"), w2).
Proof.
  intros utils.
  destruct (unknown_unit_stops (Examples.app false utils)
              ["/mnt/user/movies/b.mkv"] "cache" Examples.array_world)
    as (batch & w1 & _ & Hstop).
  destruct (Hstop eq_refl) as (unit & _ & Hunit & _ & Hguard).
  - left. simpl. unfold known_units. intros Hin.
    apply (bool_decide_pack _) in Hin. vm_compute in Hin. exact Hin.
  - rewrite Hunit in Hguard. eexists. exact Hguard.
Defined.

Lemma move_files_summary_witness :
  ∃ r w',
    PlexCacheApp._move_files (Examples.app false Examples.idle_utils)
      Examples.duplicated_world = (r, w')
    ∧ summary_ok w'.
Proof.
  eexists _, _. split; [apply surjective_pairing|].
  apply (move_files_summary (Examples.app false Examples.idle_utils)) with
    (w := Examples.duplicated_world)
    (r := fst (PlexCacheApp._move_files (Examples.app false Examples.idle_utils)
                 Examples.duplicated_world)).
  - intros src dest w r w' Hmove. vm_compute in Hmove.
    injection Hmove as <- <-. split; reflexivity.
  - reflexivity.
  - apply surjective_pairing.
Defined.

Lemma move_files_escapes_witness :
  ∃ msg w',
    PlexCacheApp._move_files (Examples.app false Examples.tight_utils)
      Examples.array_world = (Raise (SystemExit msg), w').
Proof.
  destruct (move_files_escapes (Examples.app false Examples.tight_utils)
              Examples.array_world) as [Hexit _].
  destruct (PlexCacheApp._move_files (Examples.app false Examples.tight_utils)
              Examples.array_world) as [[[]|e] w'] eqn:Hrun.
  - vm_compute in Hrun. discriminate Hrun.
  - destruct (Hexit e w' eq_refl) as [msg ->]. by exists msg, w'.
Defined.

Lemma debug_pass_keeps_filter_effects_witness :
  ∃ w',
    guarded_check (Examples.app true Examples.idle_utils)
      ["/mnt/user/movies/a.mkv"] "array" Examples.duplicated_world
    = (Return tt, w')
    ∧ is_Some (files Examples.duplicated_world !! "/mnt/cache/movies/a.mkv")
    ∧ files w' !! "/mnt/cache/movies/a.mkv" = None.
Proof.
  destruct (debug_pass_keeps_filter_effects (Examples.app true Examples.idle_utils)
              ["/mnt/user/movies/a.mkv"] "array" Examples.duplicated_world
              eq_refl eq_refl) as (batch & w1 & w' & Hfilter & Hguard & Hfiles).
  exists w'. split; [exact Hguard|]. split; [vm_compute; eauto|].
  rewrite Hfiles. vm_compute in Hfilter. injection Hfilter as _ <-.
  vm_compute. reflexivity.
Defined.

(** ** The decision stage and the move stage at the real source *)

Section source_root.
Import PyStr PosixPath.
Variable filter_ : FileFilter.t.
Variable mover : FileMover.t.
Variable root_comps : list string.
Variable name : string.

Hypothesis filter_source : FileFilter.real_source filter_ = directory_path root_comps.
Hypothesis mover_source : FileMover.real_source mover = directory_path root_comps.
Hypothesis root_ok : Forall (fun c => is_component c = true) root_comps.
Hypothesis below_root : root_comps ≠ [].
Hypothesis name_ok : has_char sep name = false.

Lemma dirname_slash d x file_name :
  last_char d = Some x → x ≠ sep → has_char sep file_name = false →
  dirname (d +:+ String sep file_name) = d.
Proof.
  intros Hx Hxsep Hname. unfold dirname, split_head_tail.
  rewrite rpartition_last by done. simpl fst.
  rewrite all_char_app, (all_char_last _ x Hx) by done.
  rewrite rstrip_sep_app, (rstrip_keep _ x Hx) by done.
  by destruct d.
Qed.

Lemma basename_slash d file_name :
  has_char sep file_name = false →
  basename (d +:+ String sep file_name) = file_name.
Proof.
  intros Hname. unfold basename, split_head_tail. by rewrite rpartition_last.
Qed.

Lemma endswith_sep_inv s : endswith s "/" = true → ∃ s0, s = s0 +:+ "/".
Proof.
  induction s as [|a s IH]; [done|].
  change (endswith (String a s) "/")
    with (String.eqb (String a s) "/" || endswith s "/").
  intros [Heq | Hrest]%orb_true_iff.
  - apply String.eqb_eq in Heq. rewrite Heq. by exists "".
  - destruct (IH Hrest) as [s0 ->]. by exists (String a s0).
Qed.

(** [os.path.join(cache_dir, ".")] ends with the component ".". *)
Lemma join2_curdir cache_dir :
  last_char (join2 cache_dir ".") = Some "."%char
  ∧ basename (join2 cache_dir ".") = ".".
Proof.
  unfold join2. change (startswith "." "/") with false. cbv iota.
  destruct (is_empty cache_dir) eqn:Hempty.
  { destruct cache_dir; [done | done]. }
  simpl orb. destruct (endswith cache_dir "/") eqn:Hend.
  - split; [by rewrite last_char_app|].
    destruct (endswith_sep_inv _ Hend) as [s0 ->].
    rewrite append_assoc. by apply basename_slash.
  - split; [by rewrite last_char_app|].
    by apply (basename_slash cache_dir ".").
Qed.

Lemma relpath_root here :
  relpath here (join "/" ("" :: root_comps)) (directory_path root_comps)
  = Some ".".
Proof using root_ok below_root.
  unfold relpath, directory_path.
  rewrite (join_absolute root_comps) at 1 by done.
  change (is_empty (String sep _)) with false. cbv iota zeta.
  rewrite (abspath_absolute here root_comps [""]);
    [|done|by right|by intros [? _]%app_eq_nil].
  replace (join "/" ("" :: root_comps))
    with (join "/" ("" :: root_comps ++ [])) by by rewrite app_nil_r.
  rewrite (abspath_absolute here root_comps []);
    [|done|by left|by rewrite app_nil_r].
  rewrite !components_absolute by done.
  replace (commonprefix_len root_comps root_comps) with (length root_comps).
  2: { rewrite <- (app_nil_r root_comps) at 3. by rewrite commonprefix_len_app. }
  by rewrite Nat.sub_diag, drop_all.
Qed.

Lemma source_directory :
  directory_path root_comps = join "/" ("" :: root_comps) +:+ "/"
  ∧ ∃ prefix d x,
      join "/" ("" :: root_comps) = prefix +:+ String sep d
      ∧ is_component d = true
      ∧ last_char (join "/" ("" :: root_comps)) = Some x ∧ x ≠ sep.
Proof using root_ok below_root.
  split.
  { unfold directory_path.
    change ("" :: root_comps ++ [""]) with (("" :: root_comps) ++ [""]).
    by rewrite join_app. }
  destruct (exists_last below_root) as (l & d & Heq).
  generalize root_ok. rewrite Heq. intros Hok.
  destruct (last_char_join l d Hok "/") as (x & Hx & Hxsep).
  exists (join "/" ("" :: l)), d, x.
  apply Forall_app in Hok as [_ [Hd _]%Forall_cons].
  split; [|split; [done|]].
  - change ("" :: l ++ [d]) with (("" :: l) ++ [d]). by rewrite join_app.
  - split; [|done]. by rewrite join_absolute by by destruct l.
Qed.

(** C10.  The two stages disagree on every file that lies directly in the
    real source.  [FileFilter._get_cache_paths] replaces nothing, because
    [dirname] has dropped the trailing slash that the real source carries:
    it names the file itself as its cache copy.  [FileMover._get_paths]
    names a file below the cache directory, and the two names differ. *)
Theorem cache_paths_disagree_at_source_root here :
  let file := directory_path root_comps +:+ name in
  let moved_to :=
    join2 (join2 (FileMover.cache_dir mover) ".") name in
  snd (FileFilter._get_cache_paths filter_ file) = file
  ∧ (∃ user_path user_file_name,
       FileMover._get_paths mover here file
       = Return (user_path, join2 (FileMover.cache_dir mover) ".", moved_to,
                 user_file_name))
  ∧ snd (FileFilter._get_cache_paths filter_ file) ≠ moved_to.
Proof using All.
  intros file moved_to.
  destruct source_directory as (Hsource & prefix & d & x & Hd & Hcomp & Hx & Hxsep).
  assert (file = join "/" ("" :: root_comps) +:+ String sep name) as Hfile.
  { unfold file. by rewrite Hsource, append_assoc. }
  assert (snd (FileFilter._get_cache_paths filter_ file) = file) as Hfilter.
  { apply (root_file_cache_copy filter_ root_comps name); done. }
  split; [done|]. split.
  - unfold FileMover._get_paths. rewrite Hfile.
    rewrite (dirname_slash _ x), basename_slash by done.
    rewrite mover_source, relpath_root. by eexists _, _.
  - rewrite Hfilter. intros Hsame.
    destruct (join2_curdir (FileMover.cache_dir mover)) as [Hlast Hbase].
    unfold moved_to in Hsame.
    rewrite (join2_plain _ name "."%char) in Hsame
      by (done || by apply startswith_sep_no_sep).
    apply (f_equal dirname) in Hsame.
    rewrite Hfile, (dirname_slash _ x) in Hsame by done.
    change ("/" +:+ name) with (String sep name) in Hsame.
    rewrite (dirname_slash _ "."%char) in Hsame by done.
    rewrite <- Hsame, Hd, basename_slash in Hbase.
    + apply component_inv in Hcomp as (_ & _ & Hdot & _). done.
    + by apply component_inv in Hcomp as (_ & ? & _).
Qed.

End source_root.

Lemma cache_paths_disagree_at_source_root_witness :
  snd (FileFilter._get_cache_paths Examples.file_filter "/mnt/user/test.mkv")
  = "/mnt/user/test.mkv"
  ∧ (∃ user_path user_file_name,
       FileMover._get_paths (Examples.file_mover false) "/" "/mnt/user/test.mkv"
       = Return (user_path, "/mnt/cache/.", "/mnt/cache/./test.mkv",
                 user_file_name))
  ∧ snd (FileFilter._get_cache_paths Examples.file_filter "/mnt/user/test.mkv")
    ≠ "/mnt/cache/./test.mkv".
Proof.
  apply (cache_paths_disagree_at_source_root Examples.file_filter
           (Examples.file_mover false) ["mnt"; "user"] "test.mkv").
  - reflexivity.
  - reflexivity.
  - repeat constructor.
  - discriminate.
  - reflexivity.
Defined.
